(** * mdpdf: Markdown to PDF conversion pipeline

    A shallow embedding of the two entry modules of the repository,
    [src/index.js] (header and footer bound into the body layout) and its
    sibling with per-page header/footer chrome, together with the properties
    of the conversion pipeline that the specification states.

    The program is a chain of promises over the filesystem and a headless
    browser.  It is modelled as a state-and-error monad over an explicit
    [world]: a flat file store, the live browser processes and pages, and a
    chronological log of every I/O operation attempted.  The third-party
    packages the program calls (path, url, file-url, showdown, cheerio,
    Handlebars, puppeteer) are an interface, [Host]; every theorem holds for
    every host. *)

From Stdlib Require Import Ascii.
From Stdlib Require String.
From stdpp Require Import base option list strings gmap.

Set Default Proof Using "Type".
Set Warnings "-register-all".

(** ** JavaScript values *)

Module JS.

(** A property that holds a string or is [undefined]. *)
Definition value := option string.

(** ToBoolean on such a value: [undefined] and the empty string are falsy. *)
Definition truthy (v : value) : bool :=
  match v with
  | Some (String _ _) => true
  | _ => false
  end.

(** [a || b] *)
Definition or_else (a b : value) : value := if truthy a then a else b.

Inductive error :=
| Error (msg : string)
| TypeError (msg : string)
| ENOENT (syscall path : string)
| EngineError (msg : string).

(** Normal completion or a thrown exception. *)
Inductive result (A : Type) :=
| Ok (a : A)
| Throw (e : error).
Arguments Ok {A} a.
Arguments Throw {A} e.

#[global] Instance result_ret : MRet result := λ A a, Ok a.
#[global] Instance result_bind : MBind result := λ A B k r,
  match r with
  | Ok a => k a
  | Throw e => Throw e
  end.

(** [s.startsWith(p)] *)
Fixpoint starts_with (p s : string) : bool :=
  match p, s with
  | EmptyString, _ => true
  | String a p', String b s' => Ascii.eqb a b && starts_with p' s'
  | String _ _, EmptyString => false
  end.

(** [hay.includes(needle)]: [needle] occurs somewhere in [hay]. *)
Fixpoint includes (needle hay : string) : bool :=
  starts_with needle hay ||
  match hay with
  | EmptyString => false
  | String _ rest => includes needle rest
  end.

(** [new RegExp(alternatives.join('|')).test(s)] for alternatives that hold
    no regular-expression metacharacter: some alternative occurs in [s]. *)
Definition regexp_test (alternatives : list string) (s : string) : bool :=
  existsb (λ a, includes a s) alternatives.

End JS.
Export JS.

(** ** Documents handled by cheerio *)

Inductive node :=
| Element (name : string) (attribs : list (string * string)) (children : list node)
| Text (data : string)
| Comment (data : string)
| Directive (data : string).

Definition dom := list node.

(** [attribs[key]] *)
Fixpoint get_attr (key : string) (attribs : list (string * string)) : value :=
  match attribs with
  | [] => None
  | (k, v) :: rest => if String.eqb k key then Some v else get_attr key rest
  end.

(** [attribs[key] = v]: an existing property keeps its position, a new one
    goes last. *)
Fixpoint set_attr (key v : string) (attribs : list (string * string))
  : list (string * string) :=
  match attribs with
  | [] => [(key, v)]
  | (k, old) :: rest =>
      if String.eqb k key then (k, v) :: rest else (k, old) :: set_attr key v rest
  end.

(** ** Values exchanged with the packages *)

(** A Handlebars context value: plain text, or a [SafeString] that the
    template inserts without escaping. *)
Inductive hb_value :=
| Plain (s : string)
| SafeString (s : string).

Definition hb_context := list (string * hb_value).

Inductive extension := showdownEmoji.

(** The options handed to [new showdown.Converter], under the flavor set by
    [showdown.setFlavor]. *)
Record converter_options := {
  flavor : string;
  prefixHeaderId : bool;
  ghCompatibleHeaderId : bool;
  extensions : list extension
}.

(** The argument of [page.pdf].  [None] in [headerTemplate] and
    [footerTemplate] stands for [null] as well as for a key that the object
    literal does not have. *)
Module Puppet.
Record margin_t := {
  top : value;
  right : value;
  bottom : value;
  left : value
}.
Record options := {
  path : value;
  displayHeaderFooter : bool;
  printBackground : bool;
  format : value;
  margin : margin_t;
  headerTemplate : value;
  footerTemplate : value
}.
End Puppet.

(** ** The conversion request *)

(** [options.pdf.border] *)
Module Border.
Record t := {
  top : value;
  right : value;
  bottom : value;
  left : value
}.
End Border.

(** [options.pdf] *)
Module Pdf.
Record t := {
  format : value;
  border : option Border.t
}.
End Pdf.

(** The [options] object of [convert].  Flags are kept as booleans; a path is
    a string or [undefined].  [assetDir] is the property [convert] adds. *)
Record options := {
  source : value;
  destination : value;
  header : value;
  footer : value;
  styles : value;
  debug : value;
  ghStyle : bool;
  defaultStyle : bool;
  noEmoji : bool;
  pdf : option Pdf.t;
  assetDir : value
}.

(** [{}] *)
Definition empty_options : options :=
  {| source := None; destination := None; header := None; footer := None;
     styles := None; debug := None; ghStyle := false; defaultStyle := false;
     noEmoji := false; pdf := None; assetDir := None |}.

(** [options.assetDir = v] *)
Definition with_assetDir (v : value) (o : options) : options :=
  {| source := source o; destination := destination o; header := header o;
     footer := footer o; styles := styles o; debug := debug o;
     ghStyle := ghStyle o; defaultStyle := defaultStyle o;
     noEmoji := noEmoji o; pdf := pdf o; assetDir := v |}.

(** [options.header = v] *)
Definition with_header (v : value) (o : options) : options :=
  {| source := source o; destination := destination o; header := v;
     footer := footer o; styles := styles o; debug := debug o;
     ghStyle := ghStyle o; defaultStyle := defaultStyle o;
     noEmoji := noEmoji o; pdf := pdf o; assetDir := assetDir o |}.

(** [options.footer = v] *)
Definition with_footer (v : value) (o : options) : options :=
  {| source := source o; destination := destination o; header := header o;
     footer := v; styles := styles o; debug := debug o;
     ghStyle := ghStyle o; defaultStyle := defaultStyle o;
     noEmoji := noEmoji o; pdf := pdf o; assetDir := assetDir o |}.

(** ** The host: Node built-ins and third-party packages *)

Class Host := {
  (** [__dirname] of the module *)
  module_dirname : string;
  (** [path.join(a, b)] *)
  path_join : string → string → string;
  (** [path.dirname(p)] *)
  path_dirname : string → string;
  (** [path.resolve(...segments)], against the working directory *)
  path_resolve : list string → string;
  (** [url.parse(s).protocol], [null] as [None] *)
  url_parse_protocol : string → value;
  (** the [file-url] package *)
  fileUrl : string → string;
  (** [new showdown.Converter(options).makeHtml(markdown)] *)
  makeHtml : converter_options → string → string;
  (** [cheerio.load(html)] and [$.html()] *)
  cheerio_load : string → dom;
  cheerio_html : dom → string;
  (** [Handlebars.compile(layout)], the compiled template as a function *)
  Handlebars_compile : string → hb_context → string;
  (** the bytes [page.pdf] writes for a loaded page *)
  pdf_bytes : string → Puppet.options → string
}.

(** ** The world: files, browser processes, and the I/O log *)

Inductive stage := Launch | NewPage | Goto | Pdf | Close.

#[global] Instance stage_eq_dec : EqDecision stage.
Proof. solve_decision. Defined.

Inductive event :=
| EvReadFileSync (p : string)
| EvReadFile (p : string)
| EvWriteFileSync (p data : string)
| EvWriteFile (p data : string)
| EvUnlinkSync (p : string)
| EvLaunch
| EvNewPage
| EvGoto (url waitUntil : string)
| EvPdf (o : Puppet.options)
| EvClose.

Record world := {
  (** the files, under the path the program uses for them; two spellings
      of the path of one file are two entries *)
  files : gmap string string;
  (** browser processes and pages that are open *)
  live_browsers : nat;
  live_pages : nat;
  (** the document the page has navigated to *)
  loaded : option string;
  (** which browser operations fail in this run, and how *)
  fault : stage → option error;
  (** every I/O operation attempted so far, oldest first *)
  log : list event
}.

Definition set_files (f : gmap string string) (w : world) : world :=
  {| files := f; live_browsers := live_browsers w; live_pages := live_pages w;
     loaded := loaded w; fault := fault w; log := log w |}.

Definition record (e : event) (w : world) : world :=
  {| files := files w; live_browsers := live_browsers w;
     live_pages := live_pages w; loaded := loaded w; fault := fault w;
     log := log w ++ [e] |}.

(** Computations that touch the world and may throw; a promise chain
    [p.then(f)] is [p ≫= f], and a rejection skips the rest of the chain. *)
Definition io (A : Type) := world → world * result A.

#[global] Instance io_ret : MRet io := λ A a w, (w, Ok a).
#[global] Instance io_bind : MBind io := λ A B k m w,
  match m w with
  | (w', Ok a) => k a w'
  | (w', Throw e) => (w', Throw e)
  end.

Definition throw {A} (e : error) : io A := λ w, (w, Throw e).

(** A synchronous step inside a promise callback. *)
Definition lift {A} (r : result A) : io A := λ w, (w, r).

Section Primitives.
Context `{Host}.

Definition read (ev : string → event) (syscall p : string) : io string := λ w,
  let w := record (ev p) w in
  match files w !! p with
  | Some data => (w, Ok data)
  | None => (w, Throw (ENOENT syscall p))
  end.

(** [fs.readFileSync(p, 'utf8')] *)
Definition readFileSync : string → io string := read EvReadFileSync "open".

(** [Promise.promisify(fs.readFile)(p, 'utf8')] *)
Definition readFile : string → io string := read EvReadFile "open".

(** [fs.writeFileSync(p, data)].  In this model a write goes through: a
    write that fails (a directory that is missing or read-only) is outside
    it, and what is proved of a run past a write is proved of the runs in
    which the write went through. *)
Definition writeFileSync (p data : string) : io () := λ w,
  (set_files (<[p := data]> (files w)) (record (EvWriteFileSync p data) w), Ok ()).

(** [Promise.promisify(fs.writeFile)(p, data)], with the same proviso. *)
Definition writeFile (p data : string) : io () := λ w,
  (set_files (<[p := data]> (files w)) (record (EvWriteFile p data) w), Ok ()).

(** [fs.unlinkSync(p)] *)
Definition unlinkSync (p : string) : io () := λ w,
  let w := record (EvUnlinkSync p) w in
  match files w !! p with
  | Some _ => (set_files (delete p (files w)) w, Ok ())
  | None => (w, Throw (ENOENT "unlink" p))
  end.

(** A browser operation: it is logged, then fails if this run says so,
    else takes effect. *)
Definition engine (s : stage) (ev : event) (effect : world → world) : io () := λ w,
  let w := record ev w in
  match fault w s with
  | Some e => (w, Throw e)
  | None => (effect w, Ok ())
  end.

(** [puppeteer.launch({ headless: true })] *)
Definition puppeteer_launch : io () :=
  engine Launch EvLaunch (λ w,
    {| files := files w; live_browsers := S (live_browsers w);
       live_pages := live_pages w; loaded := loaded w; fault := fault w;
       log := log w |}).

(** [browser.newPage()] *)
Definition browser_newPage : io () :=
  engine NewPage EvNewPage (λ w,
    {| files := files w; live_browsers := live_browsers w;
       live_pages := S (live_pages w); loaded := loaded w; fault := fault w;
       log := log w |}).

(** [page.goto('file:' + p, { waitUntil })]: the page loads the file. *)
Definition page_goto (p waitUntil : string) : io () :=
  engine Goto (EvGoto ("file:" +:+ p) waitUntil) (λ w,
    {| files := files w; live_browsers := live_browsers w;
       live_pages := live_pages w; loaded := files w !! p; fault := fault w;
       log := log w |}).

(** [page.pdf(o)]: the rendering of the loaded page is written to [o.path]. *)
Definition page_pdf (o : Puppet.options) : io () :=
  engine Pdf (EvPdf o) (λ w,
    match Puppet.path o with
    | Some dst =>
        set_files (<[dst := pdf_bytes (default "" (loaded w)) o]> (files w)) w
    | None => w
    end).

(** [browser.close()]: the process and its page go away. *)
Definition browser_close : io () :=
  engine Close EvClose (λ w,
    {| files := files w; live_browsers := pred (live_browsers w);
       live_pages := pred (live_pages w); loaded := None; fault := fault w;
       log := log w |}).

End Primitives.


(** [if (v) { yes(v) } else { no }]: in the first branch [v] is a string that
    is not empty. *)
Definition if_truthy {A} (v : value) (yes : string → A) (no : A) : A :=
  match v with
  | Some (String c s) => yes (String c s)
  | _ => no
  end.

(** [array.push(x)] *)
Definition push {A} (l : list A) (x : A) : list A := l ++ [x].

(** ** Functions that both modules define alike *)

Section Common.
Context `{Host}.

Definition highlightJs : string :=
  "file://" +:+ path_join module_dirname "/assets/highlight/highlight.pack.js".

(** The loop of [getCssAsHtml], from the value of [styleHtml] so far. *)
Fixpoint getCssAsHtml_loop (styleHtml : string) (stylesheets : list string)
  : io string :=
  match stylesheets with
  | [] => mret styleHtml
  | sheet :: rest =>
      style ← readFileSync sheet;
      getCssAsHtml_loop (styleHtml +:+ ("<style>" +:+ style +:+ "</style>")) rest
  end.

Definition getCssAsHtml (stylesheets : list string) : io string :=
  getCssAsHtml_loop "" stylesheets.

Definition getAllStyles (o : options) : io string :=
  let cssStyleSheets := [] in
  let cssStyleSheets :=
    if ghStyle o
    then push cssStyleSheets (path_join module_dirname "/assets/github-markdown-css.css")
    else cssStyleSheets in
  let cssStyleSheets :=
    push cssStyleSheets (path_join module_dirname "/assets/highlight/styles/github.css") in
  let cssStyleSheets :=
    if defaultStyle o
    then push cssStyleSheets (path_join module_dirname "/assets/default.css")
    else cssStyleSheets in
  let cssStyleSheets :=
    if_truthy (styles o) (λ p, push cssStyleSheets p) cssStyleSheets in
  getCssAsHtml cssStyleSheets.

Definition parseMarkdownToHtml (markdown : string) (convertEmojis : bool) : string :=
  let options :=
    {| flavor := "github";
       prefixHeaderId := false;
       ghCompatibleHeaderId := true;
       extensions := if convertEmojis then [showdownEmoji] else [] |} in
  makeHtml options markdown.

(** [url.parse(src).protocol]; [url.parse] throws unless [src] is a string.
    For a string the host says which protocol is found: a string on which
    Node's [url.parse] itself throws is outside this model, and what is
    proved of a string below is proved of the protocol [url.parse] reports
    for it. *)
Definition url_parse (src : value) : result value :=
  match src with
  | Some s => Ok (url_parse_protocol s)
  | None => Throw (TypeError "Parameter 'url' must be a string, not undefined")
  end.

Definition hasAcceptableProtocol (src : value) : result bool :=
  let acceptableProtocols := ["http:"; "https:"] in
  protocol ← url_parse src;
  if negb (truthy protocol) then mret false
  else mret (regexp_test acceptableProtocols (default "undefined" src)).

(** [path.resolve(dir, src)]; it throws unless both are strings. *)
Definition path_resolve2 (dir src : value) : result string :=
  match dir, src with
  | Some d, Some s => Ok (path_resolve [d; s])
  | _, _ => Throw (TypeError "Path must be a string")
  end.

Definition processSrc (src : value) (o : options) : result string :=
  ok ← hasAcceptableProtocol src;
  match ok, src with
  | true, Some s => mret s
  | _, _ =>
      resolvedSrc ← path_resolve2 (assetDir o) src;
      mret (fileUrl resolvedSrc)
  end.

(** [$('img').each(...)] on one node and its descendants, in document
    order: every [img] element gets its [src] replaced; an exception thrown
    for one element ends the traversal. *)
Fixpoint each_img (o : options) (n : node) : result node :=
  match n with
  | Element name attribs children =>
      attribs' ←
        (if String.eqb name "img"
         then src ← processSrc (get_attr "src" attribs) o;
              mret (set_attr "src" src attribs)
         else mret attribs);
      children' ←
        (fix each_imgs (l : list node) : result (list node) :=
           match l with
           | [] => mret []
           | c :: rest =>
               c' ← each_img o c;
               rest' ← each_imgs rest;
               mret (c' :: rest')
           end) children;
      mret (Element name attribs' children')
  | _ => mret n
  end.

Fixpoint each_imgs (o : options) (d : dom) : result dom :=
  match d with
  | [] => mret []
  | c :: rest =>
      c' ← each_img o c;
      rest' ← each_imgs o rest;
      mret (c' :: rest')
  end.

Definition qualifyImgSources (html : string) (o : options) : result string :=
  let doc := cheerio_load html in
  doc' ← each_imgs o doc;
  mret (cheerio_html doc').

(** The constant [tempHtmlPath] of [createPdf], for the destination [dst]. *)
Definition tempHtmlPath (dst : string) : string :=
  path_join (path_dirname dst) "_temp.html".

End Common.

(** How a call of [convert] ends: an exception thrown by the call itself, or
    the returned promise rejected or resolved. *)
Inductive outcome :=
| Thrown (e : error)
| Rejected (e : error)
| Resolved (v : string).

Definition settle (r : world * result string) : world * outcome :=
  match r with
  | (w, Ok v) => (w, Resolved v)
  | (w, Throw e) => (w, Rejected e)
  end.

(** ** [src/index.js]: header and footer bound into the body layout *)

Module Index.
Section Index.
Context `{Host}.

Definition layoutPath : string := path_join module_dirname "layout.hbs".

(** The object literal [puppetOptions] in [createPdf]; reading
    [options.pdf.format] or [options.pdf.border.top] throws when the parent
    object is missing. *)
Definition puppetOptions (o : options) : result Puppet.options :=
  match pdf o with
  | None => Throw (TypeError "Cannot read property 'format' of undefined")
  | Some p =>
      match Pdf.border p with
      | None => Throw (TypeError "Cannot read property 'top' of undefined")
      | Some b =>
          Ok {| Puppet.path := destination o;
                Puppet.displayHeaderFooter := false;
                Puppet.printBackground := true;
                Puppet.format := Pdf.format p;
                Puppet.margin :=
                  {| Puppet.top := Border.top b;
                     Puppet.right := Border.right b;
                     Puppet.bottom := Border.bottom b;
                     Puppet.left := Border.left b |};
                Puppet.headerTemplate := None;
                Puppet.footerTemplate := None |}
      end
  end.

Definition createPdf (html : string) (o : options) : io string :=
  match destination o with
  | None => throw (TypeError "Path must be a string")
  | Some dst =>
      let tempHtmlPath := tempHtmlPath dst in
      _ ← writeFile tempHtmlPath html;
      _ ← puppeteer_launch;
      _ ← browser_newPage;
      _ ← page_goto tempHtmlPath "networkidle2";
      puppetOptions ← lift (puppetOptions o);
      _ ← page_pdf puppetOptions;
      _ ← browser_close;
      _ ← unlinkSync tempHtmlPath;
      mret dst
  end.

Definition convert (arg : option options) : world → world * outcome := λ w,
  let options := default empty_options arg in
  if_truthy (source options) (λ src,
    if_truthy (destination options) (λ _,
      let options :=
        with_assetDir (Some (path_dirname (path_resolve [src]))) options in
      match getAllStyles options w with
      | (w, Throw e) => (w, Thrown e)
      | (w, Ok css) =>
          let local := [("highlightJs", Plain highlightJs);
                        ("css", SafeString css)] in
          settle (
            (layout ← readFile layoutPath;
             let template := Handlebars_compile layout in
             headerContent ←
               if_truthy (header options)
                 (λ p, content ← readFile p; mret (Some content)) (mret None);
             local ← lift (
               if_truthy headerContent
                 (λ content,
                    preparedHeader ← qualifyImgSources content options;
                    mret (push local ("header", SafeString preparedHeader)))
                 (mret local));
             footerContent ←
               if_truthy (footer options)
                 (λ p, content ← readFile p; mret (Some content)) (mret None);
             local ← lift (
               if_truthy footerContent
                 (λ content,
                    preparedFooter ← qualifyImgSources content options;
                    mret (push local ("footer", SafeString preparedFooter)))
                 (mret local));
             md ← readFile src;
             content ← lift (
               qualifyImgSources
                 (parseMarkdownToHtml md (negb (noEmoji options))) options);
             let local := push local ("body", SafeString content) in
             let html := template local in
             _ ← if_truthy (debug options) (λ p, writeFileSync p html) (mret ());
             createPdf html options) w)
      end)
      (w, Thrown (Error "Destination path must be provided")))
    (w, Thrown (Error "Source path must be provided")).

End Index.
End Index.

(** ** The sibling module: header and footer as per-page chrome *)

Module Part000.
Section Part000.
Context `{Host}.

Definition layoutPath : string := path_join module_dirname "/layouts/doc-body.hbs".
Definition headerLayoutPath : string := path_join module_dirname "/layouts/header.hbs".
Definition footerLayoutPath : string := path_join module_dirname "/layouts/footer.hbs".

Definition prepareHeader (o : options) : io value :=
  if_truthy (header o)
    (λ p,
       headerLayout ← readFile headerLayoutPath;
       let headerTemplate := Handlebars_compile headerLayout in
       headerContent ← readFile p;
       preparedHeader ← lift (qualifyImgSources headerContent o);
       let headerHtml := headerTemplate [("content", SafeString preparedHeader)] in
       mret (Some headerHtml))
    (mret None).

Definition prepareFooter (o : options) : io value :=
  if_truthy (footer o)
    (λ p,
       footerContent ← readFile p;
       preparedFooter ← lift (qualifyImgSources footerContent o);
       mret (Some preparedFooter))
    (mret None).

(** The object literal [puppetOptions] in [createPdf]; of the two
    [displayHeaderFooter] keys the later one counts. *)
Definition puppetOptions (o : options) : result Puppet.options :=
  match pdf o with
  | None => Throw (TypeError "Cannot read property 'format' of undefined")
  | Some p =>
      match Pdf.border p with
      | None => Throw (TypeError "Cannot read property 'top' of undefined")
      | Some b =>
          Ok {| Puppet.path := destination o;
                Puppet.printBackground := true;
                Puppet.format := Pdf.format p;
                Puppet.margin :=
                  {| Puppet.top := Border.top b;
                     Puppet.right := Border.right b;
                     Puppet.bottom := Border.bottom b;
                     Puppet.left := Border.left b |};
                Puppet.displayHeaderFooter :=
                  truthy (header o) || truthy (footer o);
                Puppet.headerTemplate := or_else (header o) None;
                Puppet.footerTemplate := or_else (footer o) None |}
      end
  end.

Definition createPdf (html : string) (o : options) : io string :=
  match destination o with
  | None => throw (TypeError "Path must be a string")
  | Some dst =>
      let tempHtmlPath := tempHtmlPath dst in
      _ ← writeFile tempHtmlPath html;
      _ ← puppeteer_launch;
      _ ← browser_newPage;
      _ ← page_goto tempHtmlPath "networkidle2";
      puppetOptions ← lift (puppetOptions o);
      _ ← page_pdf puppetOptions;
      _ ← browser_close;
      _ ← unlinkSync tempHtmlPath;
      mret dst
  end.

Definition convert (arg : option options) : world → world * outcome := λ w,
  let options := default empty_options arg in
  if_truthy (source options) (λ src,
    if_truthy (destination options) (λ _,
      let options :=
        with_assetDir (Some (path_dirname (path_resolve [src]))) options in
      match getAllStyles options w with
      | (w, Throw e) => (w, Thrown e)
      | (w, Ok css) =>
          let local := [("highlightJs", Plain highlightJs);
                        ("css", SafeString css)] in
          settle (
            (header ← prepareHeader options;
             let options := with_header header options in
             footer ← prepareFooter options;
             let options := with_footer footer options in
             layout ← readFile layoutPath;
             let template := Handlebars_compile layout in
             mdDoc ← readFile src;
             content ← lift (
               qualifyImgSources
                 (parseMarkdownToHtml mdDoc (negb (noEmoji options))) options);
             let local := push local ("body", SafeString content) in
             let html := template local in
             createPdf html options) w)
      end)
      (w, Thrown (Error "Destination path must be provided")))
    (w, Thrown (Error "Source path must be provided")).

End Part000.
End Part000.

(** ** A reference host

    Models of the Node built-ins on a POSIX system, after the documented
    behaviour of [path.posix], the legacy [url.parse] and [file-url] 2.x,
    on strings of bytes.  They serve to run the program on examples. *)

Module Node.

Definition slash : ascii := "/"%char.

Definition is_slash (c : ascii) : bool := Ascii.eqb c slash.

Definition chars : string → list ascii := String.list_ascii_of_string.
Definition str : list ascii → string := String.string_of_list_ascii.

Fixpoint drop_while {A} (f : A → bool) (l : list A) : list A :=
  match l with
  | [] => []
  | x :: rest => if f x then drop_while f rest else l
  end.

Definition starts_with_slash (s : string) : bool :=
  match s with
  | String c _ => is_slash c
  | EmptyString => false
  end.

Fixpoint ends_with_slash (s : string) : bool :=
  match s with
  | EmptyString => false
  | String c EmptyString => is_slash c
  | String _ rest => ends_with_slash rest
  end.

(** [s.split('/')] *)
Fixpoint split (s : string) : list string :=
  match s with
  | EmptyString => [EmptyString]
  | String c rest =>
      if is_slash c then EmptyString :: split rest
      else match split rest with
           | seg :: segs => String c seg :: segs
           | [] => [String c EmptyString]
           end
  end.

(** [normalizeString]: drop empty and [.] segments, let [..] cancel the
    segment before it; [up] is the stack of kept segments, last first. *)
Fixpoint normalize_segments (allowAboveRoot : bool) (up segs : list string)
  : list string :=
  match segs with
  | [] => rev up
  | seg :: rest =>
      if bool_decide (seg = "" ∨ seg = ".") then
        normalize_segments allowAboveRoot up rest
      else if bool_decide (seg = "..") then
        match up with
        | last :: up' =>
            if bool_decide (last = "..")
            then normalize_segments allowAboveRoot (seg :: up) rest
            else normalize_segments allowAboveRoot up' rest
        | [] =>
            if allowAboveRoot
            then normalize_segments allowAboveRoot [seg] rest
            else normalize_segments allowAboveRoot [] rest
        end
      else normalize_segments allowAboveRoot (seg :: up) rest
  end.

Definition normalizeString (p : string) (allowAboveRoot : bool) : string :=
  String.concat "/" (normalize_segments allowAboveRoot [] (split p)).

(** [path.posix.normalize] *)
Definition normalize (p : string) : string :=
  match p with
  | EmptyString => "."
  | _ =>
      let isAbsolute := starts_with_slash p in
      let trailingSeparator := ends_with_slash p in
      let n := normalizeString p (negb isAbsolute) in
      match n with
      | EmptyString =>
          if isAbsolute then "/" else if trailingSeparator then "./" else "."
      | _ =>
          let n := if trailingSeparator then n +:+ "/" else n in
          if isAbsolute then "/" +:+ n else n
      end
  end.

(** [path.posix.join(a, b)] *)
Definition join (a b : string) : string :=
  match a, b with
  | EmptyString, EmptyString => "."
  | EmptyString, _ => normalize b
  | _, EmptyString => normalize a
  | _, _ => normalize (a +:+ "/" +:+ b)
  end.

(** [path.posix.dirname] *)
Definition dirname (p : string) : string :=
  match p with
  | EmptyString => "."
  | String c rest =>
      let hasRoot := is_slash c in
      let tail := drop_while is_slash (rev (chars rest)) in
      match drop_while (λ x, negb (is_slash x)) tail with
      | [] => if hasRoot then "/" else "."
      | _ :: before =>
          match before with
          | [] => if hasRoot then "//" else String c EmptyString
          | _ => String c (str (rev before))
          end
      end
  end.

(** The loop of [path.posix.resolve], over the arguments from the last to
    the first, then the working directory. *)
Fixpoint resolve_loop (cwd : string) (args : list string) (resolvedPath : string)
  : string * bool :=
  match args with
  | [] =>
      match cwd with
      | EmptyString => (resolvedPath, false)
      | _ => (cwd +:+ "/" +:+ resolvedPath, starts_with_slash cwd)
      end
  | p :: rest =>
      match p with
      | EmptyString => resolve_loop cwd rest resolvedPath
      | _ =>
          if starts_with_slash p then (p +:+ "/" +:+ resolvedPath, true)
          else resolve_loop cwd rest (p +:+ "/" +:+ resolvedPath)
      end
  end.

(** [path.posix.resolve(...args)] with [process.cwd()] being [cwd] *)
Definition resolve (cwd : string) (args : list string) : string :=
  let '(resolvedPath, resolvedAbsolute) := resolve_loop cwd (rev args) "" in
  let n := normalizeString resolvedPath (negb resolvedAbsolute) in
  if resolvedAbsolute then "/" +:+ n
  else match n with EmptyString => "." | _ => n end.

Definition is_space (c : ascii) : bool :=
  let n := nat_of_ascii c in
  bool_decide (n = 32 ∨ 9 ≤ n ≤ 13).

(** The string without its leading white space: blanks, tabs and line
    breaks, and the no-break space U+00A0 and the byte order mark U+FEFF,
    which are the bytes [C2 A0] and [EF BB BF] of a UTF-8 string. *)
Fixpoint trim_start (l : list ascii) : list ascii :=
  match l with
  | [] => []
  | c :: rest =>
      if is_space c then trim_start rest
      else
        match rest with
        | c2 :: rest2 =>
            if bool_decide (nat_of_ascii c = 194 ∧ nat_of_ascii c2 = 160)
            then trim_start rest2
            else
              match rest2 with
              | c3 :: rest3 =>
                  if bool_decide (nat_of_ascii c = 239 ∧ nat_of_ascii c2 = 187 ∧
                                  nat_of_ascii c3 = 191)
                  then trim_start rest3
                  else l
              | [] => l
              end
        | [] => l
        end
  end.

Definition lower (c : ascii) : ascii :=
  let n := nat_of_ascii c in
  if bool_decide (65 ≤ n ≤ 90) then ascii_of_nat (n + 32) else c.

(** The class [[a-z0-9.+-]] of the protocol pattern, ignoring case. *)
Definition is_scheme_char (c : ascii) : bool :=
  let n := nat_of_ascii (lower c) in
  bool_decide (97 ≤ n ≤ 122 ∨ 48 ≤ n ≤ 57 ∨ n = 46 ∨ n = 43 ∨ n = 45).

(** A match of [/^[a-z0-9.+-]+:/i]; [seen] holds the scheme characters read
    so far, last first. *)
Fixpoint protocol_match (seen : list ascii) (s : list ascii) : option (list ascii) :=
  match s with
  | [] => None
  | c :: rest =>
      if is_scheme_char c then protocol_match (c :: seen) rest
      else if bool_decide (c = ":"%char) then
        match seen with
        | [] => None
        | _ => Some (rev (c :: seen))
        end
      else None
  end.

(** [url.parse(s).protocol]: the scheme with its colon, in lower case, of
    the string without its leading white space. *)
Definition protocol (s : string) : value :=
  str ∘ map lower <$> protocol_match [] (trim_start (chars s)).

Definition hex_digit (n : nat) : ascii :=
  if bool_decide (n < 10) then ascii_of_nat (48 + n) else ascii_of_nat (55 + n).

(** The characters [encodeURI] leaves alone. *)
Definition uri_unescaped (c : ascii) : bool :=
  let n := nat_of_ascii c in
  bool_decide (97 ≤ n ≤ 122 ∨ 65 ≤ n ≤ 90 ∨ 48 ≤ n ≤ 57) ||
  includes (String c EmptyString) ";/?:@&=+$,#-_.!~*'()".

(** [encodeURI] on the bytes of a well-formed string *)
Fixpoint encodeURI (s : string) : string :=
  match s with
  | EmptyString => EmptyString
  | String c rest =>
      if uri_unescaped c then String c (encodeURI rest)
      else
        let n := nat_of_ascii c in
        String "%" (String (hex_digit (n / 16))
                      (String (hex_digit (n mod 16)) (encodeURI rest)))
  end.

Fixpoint backslashes_to_slashes (s : string) : string :=
  match s with
  | EmptyString => EmptyString
  | String c rest =>
      String (if bool_decide (c = "\"%char) then slash else c)
             (backslashes_to_slashes rest)
  end.

(** [s.replace(/[?#]/g, encodeURIComponent)] *)
Fixpoint escape_query_and_hash (s : string) : string :=
  match s with
  | EmptyString => EmptyString
  | String c rest =>
      if bool_decide (c = "?"%char) then "%3F" +:+ escape_query_and_hash rest
      else if bool_decide (c = "#"%char) then "%23" +:+ escape_query_and_hash rest
      else String c (escape_query_and_hash rest)
  end.

(** [fileUrl(str)] of file-url 2.x *)
Definition file_url (cwd : string) (s : string) : string :=
  let pathName := backslashes_to_slashes (resolve cwd [s]) in
  let pathName := if starts_with_slash pathName then pathName else "/" +:+ pathName in
  escape_query_and_hash (encodeURI ("file://" +:+ pathName)).

End Node.

(** The reference host.  The built-ins are the models above, run in the
    working directory [/work] for a package installed in [/pkg].  The
    document engines are simple stand-ins: a converter that wraps the text in
    a paragraph, a parser that knows one tag, a serializer that prints the
    tree, a template that appends the values of its context to the layout,
    and a renderer that prefixes the page. *)

Module Reference.

Definition quote : string := String (ascii_of_nat 34) EmptyString.

Definition render_attribs (attribs : list (string * string)) : string :=
  String.concat ""
    (map (λ kv, " " +:+ kv.1 +:+ "=" +:+ quote +:+ kv.2 +:+ quote) attribs).

Fixpoint render (n : node) : string :=
  match n with
  | Element name attribs children =>
      "<" +:+ name +:+ render_attribs attribs +:+ ">" +:+
      String.concat "" (map render children) +:+
      (if String.eqb name "img" then "" else "</" +:+ name +:+ ">")
  | Text data => data
  | Comment data => "<!--" +:+ data +:+ "-->"
  | Directive data => "<" +:+ data +:+ ">"
  end.

Definition text_node (seen : list ascii) : dom :=
  match seen with
  | [] => []
  | _ => [Text (Node.str (rev seen))]
  end.

(** A parser for text with tags of the form [<img src=...>], the value
    unquoted: [skip] characters are still to be passed over, [in_src] says
    that a value is being read, [seen] holds the characters of the current
    text or value, last first. *)
Fixpoint scan (skip : nat) (in_src : bool) (seen : list ascii) (s : string) : dom :=
  match s with
  | EmptyString => if in_src then [] else text_node seen
  | String c rest =>
      match skip with
      | S k => scan k in_src seen rest
      | 0 =>
          if in_src then
            if bool_decide (c = ">"%char)
            then Element "img" [("src", Node.str (rev seen))] [] :: scan 0 false [] rest
            else scan 0 true (c :: seen) rest
          else if starts_with "<img src=" s
          then text_node seen ++ scan 8 true [] rest
          else scan 0 false (c :: seen) rest
      end
  end.

Definition hb_text (v : hb_value) : string :=
  match v with
  | Plain s => s
  | SafeString s => s
  end.

#[global] Instance host : Host := {|
  module_dirname := "/pkg";
  path_join := Node.join;
  path_dirname := Node.dirname;
  path_resolve := Node.resolve "/work";
  url_parse_protocol := Node.protocol;
  fileUrl := Node.file_url "/work";
  makeHtml := λ _ markdown, "<p>" +:+ markdown +:+ "</p>";
  cheerio_load := scan 0 false [];
  cheerio_html := λ d, String.concat "" (map render d);
  Handlebars_compile := λ layout context,
    layout +:+ String.concat "" (map (λ kv, hb_text kv.2) context);
  pdf_bytes := λ page _, "%PDF-" +:+ page
|}.

(** No browser operation fails. *)
Definition no_fault : stage → option error := λ _, None.

(** A world with the package's assets and the given user files. *)
Definition world_of (user_files : list (string * string))
    (fault : stage → option error) : world :=
  {| files :=
       list_to_map
         (user_files ++
          [("/pkg/assets/github-markdown-css.css", "gh{}");
           ("/pkg/assets/highlight/styles/github.css", "hl{}");
           ("/pkg/assets/default.css", "df{}");
           ("/pkg/layout.hbs", "[layout]");
           ("/pkg/layouts/doc-body.hbs", "[doc-body]");
           ("/pkg/layouts/header.hbs", "[header]");
           ("/pkg/layouts/footer.hbs", "[footer]")]);
     live_browsers := 0;
     live_pages := 0;
     loaded := None;
     fault := fault;
     log := [] |}.

(** A request for [/work/doc.md] to [/out/doc.pdf] with a page layout. *)
Definition request (header footer : value) : options :=
  {| source := Some "/work/doc.md"; destination := Some "/out/doc.pdf";
     header := header; footer := footer; styles := None; debug := None;
     ghStyle := true; defaultStyle := false; noEmoji := false;
     pdf := Some {| Pdf.format := Some "A4";
                    Pdf.border := Some {| Border.top := Some "20mm";
                                          Border.right := Some "20mm";
                                          Border.bottom := Some "20mm";
                                          Border.left := Some "20mm" |} |};
     assetDir := None |}.

End Reference.

(** ** Observations on documents *)

(** Some element of the tree is an [img]. *)
Fixpoint has_img (n : node) : bool :=
  match n with
  | Element name _ children => String.eqb name "img" || existsb has_img children
  | _ => false
  end.

(** Every [img] of the tree has a [src] attribute. *)
Fixpoint imgs_have_src (n : node) : bool :=
  match n with
  | Element name attribs children =>
      (if String.eqb name "img"
       then bool_decide (is_Some (get_attr "src" attribs)) else true)
      && forallb imgs_have_src children
  | _ => true
  end.

(** The attributes with the value of every [src] blanked. *)
Definition blank_src (attribs : list (string * string)) : list (string * string) :=
  map (λ kv, if String.eqb kv.1 "src" then (kv.1, "") else kv) attribs.

(** The tree with the [src] values of its [img] elements blanked: what is
    left is everything else, in place. *)
Fixpoint mask_src (n : node) : node :=
  match n with
  | Element name attribs children =>
      Element name
        (if String.eqb name "img" then blank_src attribs else attribs)
        (map mask_src children)
  | _ => n
  end.

(** The [src] values of the [img] elements of a tree, in document order;
    [None] for an [img] without [src]. *)
Fixpoint img_srcs (n : node) : list value :=
  match n with
  | Element name attribs children =>
      (if String.eqb name "img" then [get_attr "src" attribs] else []) ++
      flat_map img_srcs children
  | _ => []
  end.

(** ** Observations on runs *)

(** The world after further operations were logged. *)
Definition logged (evs : list event) (w : world) : world :=
  {| files := files w; live_browsers := live_browsers w;
     live_pages := live_pages w; loaded := loaded w; fault := fault w;
     log := log w ++ evs |}.

Section Sheets.
Context `{Host}.

(** The list of sheets [getAllStyles] builds. *)
Definition selected_sheets (o : options) : list string :=
  (if ghStyle o then [path_join module_dirname "/assets/github-markdown-css.css"] else []) ++
  [path_join module_dirname "/assets/highlight/styles/github.css"] ++
  (if defaultStyle o then [path_join module_dirname "/assets/default.css"] else []) ++
  (if_truthy (styles o) (λ p, [p]) []).

End Sheets.

Section Runs.
Context `{Host}.

(** The operations of a render that went through, for the page [html], the
    destination [dst] and the parameters [po]. *)
Definition render_events (html dst : string) (po : Puppet.options) : list event :=
  [EvWriteFile (tempHtmlPath dst) html;
   EvLaunch;
   EvNewPage;
   EvGoto ("file:" +:+ tempHtmlPath dst) "networkidle2";
   EvPdf po;
   EvClose;
   EvUnlinkSync (tempHtmlPath dst)].

(** The world after such a render. *)
Definition rendered (html dst : string) (po : Puppet.options) (w : world) : world :=
  {| files :=
       delete (tempHtmlPath dst)
         (<[dst := pdf_bytes html po]> (<[tempHtmlPath dst := html]> (files w)));
     live_browsers := live_browsers w;
     live_pages := live_pages w;
     loaded := None;
     fault := fault w;
     log := log w ++ render_events html dst po |}.

End Runs.

(** The position of a browser operation in the render. *)
Definition stage_index (s : stage) : nat :=
  match s with
  | Launch => 0
  | NewPage => 1
  | Goto => 2
  | Pdf => 3
  | Close => 4
  end.

(** [s] is the first browser operation that fails in [w], with [e]. *)
Definition first_fault (w : world) (s : stage) (e : error) : Prop :=
  fault w s = Some e ∧ ∀ s', stage_index s' < stage_index s → fault w s' = None.

#[global] Instance margin_eq_dec : EqDecision Puppet.margin_t.
Proof. solve_decision. Defined.

#[global] Instance puppet_options_eq_dec : EqDecision Puppet.options.
Proof. solve_decision. Defined.

#[global] Instance event_eq_dec : EqDecision event.
Proof. solve_decision. Defined.

Section Failure.
Context `{Host}.

(** A render of [html] to [dst] that started in [w] and in which [s] failed
    ended without cleanup: the promise is rejected, after the temporary file
    was written nothing closed the browser or deleted the file, the file is
    still there, and the browser, if it was launched, and its page, if it was
    created, are still open. *)
Definition abandoned (run : world * result string) (w : world)
    (html dst : string) (s : stage) : Prop :=
  ∃ w' e evs,
    run = (w', Throw e) ∧
    log w' = log w ++ EvWriteFile (tempHtmlPath dst) html :: evs ∧
    (EvClose ∉ evs) ∧
    (EvUnlinkSync (tempHtmlPath dst) ∉ evs) ∧
    files w' !! tempHtmlPath dst = Some html ∧
    live_browsers w' =
      (if decide (s = Launch) then live_browsers w else S (live_browsers w)) ∧
    live_pages w' =
      (if decide (s = Launch ∨ s = NewPage) then live_pages w
       else S (live_pages w)).

End Failure.

Section Fragments.
Context `{Host}.

(** What the resolver made of the [src] of one [img], for the asset
    directory [dir]: the [img] had a [src]; its new [src] is that [src] as it
    was or the file URL of its path resolved in [dir], nothing else; and it
    is the latter when the [src] has no scheme, that is, is relative. *)
Definition resolved_src (dir : string) (old new : value) : Prop :=
  ∃ s, old = Some s ∧
       (new = Some s ∨ new = Some (fileUrl (path_resolve [dir; s]))) ∧
       (truthy (url_parse_protocol s) = false →
        new = Some (fileUrl (path_resolve [dir; s]))).

(** [out] is the fragment [html] with the [src] of every [img] resolved
    against the directory [dir]: it is what the resolver returns for that
    asset directory, namely the serialization of a tree that is the parsed
    fragment except for the [src] values of its [img] elements, each of
    which, in document order, is the old one resolved in [dir]. *)
Definition qualified_in (dir html out : string) : Prop :=
  qualifyImgSources html (with_assetDir (Some dir) empty_options) = Ok out ∧
  ∃ doc',
    out = cheerio_html doc' ∧
    map mask_src doc' = map mask_src (cheerio_load html) ∧
    Forall2 (resolved_src dir)
      (flat_map img_srcs (cheerio_load html)) (flat_map img_srcs doc').

(** [hdr] is what [prepareHeader] yields for the header path [p], the files
    of [w] and the asset directory [dir]: nothing without a path, else the
    header layout applied to the content of the header file with its images
    qualified. *)
Definition produced_header (w : world) (dir : string) (p hdr : value) : Prop :=
  if truthy p then
    ∃ file layout content prepared,
      p = Some file ∧
      files w !! Part000.headerLayoutPath = Some layout ∧
      files w !! file = Some content ∧
      qualified_in dir content prepared ∧
      hdr = Some (Handlebars_compile layout [("content", SafeString prepared)])
  else hdr = None.

(** [ftr] is what [prepareFooter] yields for the footer path [p]: nothing
    without a path, else the content of the footer file with its images
    qualified. *)
Definition produced_footer (w : world) (dir : string) (p ftr : value) : Prop :=
  if truthy p then
    ∃ file content prepared,
      p = Some file ∧
      files w !! file = Some content ∧
      qualified_in dir content prepared ∧
      ftr = Some prepared
  else ftr = None.

(** [entry] is what [src/index.js] adds to the template context under [key]
    for the fragment path [p]: nothing without a path or for an empty file,
    else the content of the file with its images qualified, as a
    [SafeString]. *)
Definition bound_fragment (w : world) (dir : string) (p : value) (key : string)
    (entry : hb_context) : Prop :=
  if truthy p then
    ∃ file content,
      p = Some file ∧
      files w !! file = Some content ∧
      if truthy (Some content) then
        ∃ prepared,
          qualified_in dir content prepared ∧
          entry = [(key, SafeString prepared)]
      else entry = []
  else entry = [].

(** The parameters of the [page.pdf] calls in a log. *)
Definition pdf_requests (evs : list event) : list Puppet.options :=
  omap (λ e, match e with EvPdf po => Some po | _ => None end) evs.

End Fragments.

(** ** Further observations *)

(** The operation only reads a file. *)
Definition is_read (e : event) : bool :=
  match e with
  | EvReadFileSync _ | EvReadFile _ => true
  | _ => false
  end.

(** From [w] to [w'] no file changed except, possibly, those named in
    [paths]. *)
Definition touches_only (paths : list string) (w w' : world) : Prop :=
  ∀ p, p ∉ paths → files w' !! p = files w !! p.

(** Every run of [m] changes no file except, possibly, those in [paths]. *)
Definition frames {A} (paths : list string) (m : io A) : Prop :=
  ∀ w w' r, m w = (w', r) → touches_only paths w w'.

(** Every run of [m] only reads files: it changes neither the files nor the
    browser, and logs only reads. *)
Definition reads_only {A} (m : io A) : Prop :=
  ∀ w w' r, m w = (w', r) →
    ∃ evs, w' = logged evs w ∧ forallb is_read evs = true.

Section CloseFailure.
Context `{Host}.

(** A render of [html] to [dst] with the parameters [po] in which only
    [browser.close] failed, with [e]: the promise is rejected although the
    PDF has been written; deleting the temporary file was not attempted and
    the file is still there. *)
Definition close_failed (run : world * result string) (w : world)
    (html dst : string) (po : Puppet.options) (e : error) : Prop :=
  ∃ w',
    run = (w', Throw e) ∧
    files w' !! dst = Some (pdf_bytes html po) ∧
    is_Some (files w' !! tempHtmlPath dst) ∧
    log w' = log w ++
             [EvWriteFile (tempHtmlPath dst) html; EvLaunch; EvNewPage;
              EvGoto ("file:" +:+ tempHtmlPath dst) "networkidle2";
              EvPdf po; EvClose].

End CloseFailure.

(** From [w] to [w'] files were read and nothing else happened. *)
Definition quiet (w w' : world) : Prop :=
  ∃ evs, w' = logged evs w ∧ forallb is_read evs = true.

(** A host like the reference one whose parser also knows the fragment
    [<p><img></p>], an image without attributes. *)
Definition bare_img_host : Host := {|
  module_dirname := "/pkg";
  path_join := Node.join;
  path_dirname := Node.dirname;
  path_resolve := Node.resolve "/work";
  url_parse_protocol := Node.protocol;
  fileUrl := Node.file_url "/work";
  makeHtml := λ _ markdown, "<p>" +:+ markdown +:+ "</p>";
  cheerio_load := λ html,
    if String.eqb html "<p><img></p>"
    then [Element "p" [] [Element "img" [] []]]
    else Reference.scan 0 false [] html;
  cheerio_html := λ d, String.concat "" (map Reference.render d);
  Handlebars_compile := λ layout context,
    layout +:+ String.concat "" (map (λ kv, Reference.hb_text kv.2) context);
  pdf_bytes := λ page _, "%PDF-" +:+ page
|}.

(** The string without its white space. *)
Fixpoint without_whitespace (s : string) : string :=
  match s with
  | EmptyString => EmptyString
  | String c rest =>
      if Node.is_space c then without_whitespace rest
      else String c (without_whitespace rest)
  end.

(** A serializer that, like cheerio's, prints the void elements [br], [hr]
    and [img] without content and without end tag. *)
Fixpoint render_void (n : node) : string :=
  match n with
  | Element name attribs children =>
      "<" +:+ name +:+ Reference.render_attribs attribs +:+ ">" +:+
      (if bool_decide (name ∈ ["br"; "hr"; "img"]) then ""
       else String.concat "" (map render_void children) +:+
            "</" +:+ name +:+ ">")
  | Text data => data
  | Comment data => "<!--" +:+ data +:+ "-->"
  | Directive data => "<" +:+ data +:+ ">"
  end.

(** A host like the reference one whose parser also knows the fragment
    [<br />], a void element written with a closing slash, and whose
    serializer prints void elements as cheerio does. *)
Definition void_tag_host : Host := {|
  module_dirname := "/pkg";
  path_join := Node.join;
  path_dirname := Node.dirname;
  path_resolve := Node.resolve "/work";
  url_parse_protocol := Node.protocol;
  fileUrl := Node.file_url "/work";
  makeHtml := λ _ markdown, "<p>" +:+ markdown +:+ "</p>";
  cheerio_load := λ html,
    if String.eqb html "<br />"
    then [Element "br" [] []]
    else Reference.scan 0 false [] html;
  cheerio_html := λ d, String.concat "" (map render_void d);
  Handlebars_compile := λ layout context,
    layout +:+ String.concat "" (map (λ kv, Reference.hb_text kv.2) context);
  pdf_bytes := λ page _, "%PDF-" +:+ page
|}.

(** Only the browser operation [s] fails, with [e]. *)
Definition fault_at (s : stage) (e : error) : stage → option error :=
  λ s', if decide (s' = s) then Some e else None.

(** The reference request with a debug path and without page layout. *)
Definition request_with (debug : value) (pdf : option Pdf.t) (header : value)
  : options :=
  {| source := Some "/work/doc.md"; destination := Some "/out/doc.pdf";
     header := header; footer := None; styles := None; debug := debug;
     ghStyle := true; defaultStyle := false; noEmoji := false;
     pdf := pdf; assetDir := None |}.

(** The reference request with another destination. *)
Definition request_to (dst : string) : options :=
  {| source := Some "/work/doc.md"; destination := Some dst;
     header := None; footer := None; styles := None; debug := None;
     ghStyle := true; defaultStyle := false; noEmoji := false;
     pdf := pdf (Reference.request None None); assetDir := None |}.

(** * Properties *)

(** ** Strings *)

(** One step of [+:+] on a string whose head is known. *)
Lemma append_cons (c : ascii) (s t : string) :
  String c s +:+ t = String c (s +:+ t).
Proof. done. Qed.

Lemma append_nil_l (s : string) : "" +:+ s = s.
Proof. done. Qed.

Lemma append_nil_r (s : string) : s +:+ "" = s.
Proof. induction s as [|c s IH]; [done | by rewrite append_cons, IH]. Qed.

Lemma append_assoc (a b c : string) : (a +:+ b) +:+ c = a +:+ (b +:+ c).
Proof.
  induction a as [|x a IH]; [done | by rewrite !append_cons, IH].
Qed.

Lemma starts_with_spec (p s : string) :
  starts_with p s = true ↔ ∃ b, s = p +:+ b.
Proof.
  revert s. induction p as [|x p IH]; intros s.
  - split; [intros _; by exists s | done].
  - destruct s as [|y s]; simpl.
    { split; [done | intros [b Hb]; discriminate]. }
    rewrite andb_true_iff, Ascii.eqb_eq, IH. split.
    + intros [-> [b ->]]. by exists b.
    + intros [b Hb]. rewrite append_cons in Hb.
      split; [congruence | exists b; congruence].
Qed.

(** [includes] is the substring relation. *)
Lemma includes_spec (n h : string) :
  includes n h = true ↔ ∃ a b, h = a +:+ n +:+ b.
Proof.
  induction h as [|y h IH]; simpl.
  - rewrite orb_false_r, starts_with_spec. split.
    + intros [b Hb]. by exists "", b.
    + intros [a [b Hab]]. destruct a; [by exists b | discriminate].
  - rewrite orb_true_iff, starts_with_spec, IH. split.
    + intros [[b Hb] | [a [b Hab]]].
      * by exists "", b.
      * exists (String y a), b. by rewrite append_cons, Hab.
    + intros [a [b Hab]]. destruct a as [|x a].
      * left. by exists b.
      * right. exists a, b. rewrite append_cons in Hab. congruence.
Qed.

Lemma if_truthy_true {A} (v : value) (yes : string → A) (no : A) :
  truthy v = true → ∃ s, v = Some s ∧ if_truthy v yes no = yes s.
Proof. destruct v as [[|c s]|]; simpl; try done. intros _. by eexists. Qed.

Lemma if_truthy_false {A} (v : value) (yes : string → A) (no : A) :
  truthy v = false → if_truthy v yes no = no.
Proof. by destruct v as [[|c s]|]. Qed.

(** ** The asset path resolver on one [src] *)

Section Resolver.
Context `{Host}.

Lemma hasAcceptableProtocol_string (src : string) :
  hasAcceptableProtocol (Some src) =
  Ok (truthy (url_parse_protocol src) &&
      (includes "http:" src || includes "https:" src)).
Proof.
  unfold hasAcceptableProtocol, regexp_test. simpl.
  destruct (truthy (url_parse_protocol src)); simpl; [|done].
  by rewrite orb_false_r.
Qed.

Lemma processSrc_string (src : string) (o : options) :
  processSrc (Some src) o =
  if truthy (url_parse_protocol src) &&
     (includes "http:" src || includes "https:" src)
  then Ok src
  else match assetDir o with
       | Some dir => Ok (fileUrl (path_resolve [dir; src]))
       | None => Throw (TypeError "Path must be a string")
       end.
Proof.
  unfold processSrc. rewrite hasAcceptableProtocol_string. simpl.
  destruct (truthy _ && _); [done |].
  unfold path_resolve2. by destruct (assetDir o).
Qed.

Lemma processSrc_undefined (o : options) :
  processSrc None o =
  Throw (TypeError "Parameter 'url' must be a string, not undefined").
Proof. done. Qed.


End Resolver.


(** C3.  On the reference host the resolver does not decide by scheme: a
    [src] whose scheme is [ftp] is returned unchanged because [http:]
    occurs in its query, and a [src] whose scheme is [http], written in
    upper case, is resolved as a path.  The two examples of the
    specification behave as it says. *)
Theorem C3_scheme_check_diverges :
  let o := with_assetDir (Some "/docs") empty_options in
  (url_parse_protocol "ftp://host/redirect?to=http://x" = Some "ftp:" ∧
   processSrc (Some "ftp://host/redirect?to=http://x") o
     = Ok "ftp://host/redirect?to=http://x") ∧
  (url_parse_protocol "HTTP://example.com/a.png" = Some "http:" ∧
   processSrc (Some "HTTP://example.com/a.png") o
     = Ok "file:///docs/HTTP:/example.com/a.png") ∧
  processSrc (Some "https://example.com/a.png") o
    = Ok "https://example.com/a.png" ∧
  processSrc (Some "./a.png") o = Ok "file:///docs/a.png".
Proof. vm_compute. done. Qed.

(** ** The asset path resolver on a fragment *)

(** Induction on a tree, with the property available for all children. *)
Lemma node_forall_ind (P : node → Prop) :
  (∀ name attribs children,
     Forall P children → P (Element name attribs children)) →
  (∀ data, P (Text data)) →
  (∀ data, P (Comment data)) →
  (∀ data, P (Directive data)) →
  ∀ n, P n.
Proof.
  intros HE HT HC HD. fix IH 1.
  intros [name attribs children|d|d|d]; [|apply HT|apply HC|apply HD].
  apply HE. induction children as [|c cs IHcs]; constructor;
    [apply IH | exact IHcs].
Qed.

Lemma blank_src_set_attr (attribs : list (string * string)) (v : string) :
  is_Some (get_attr "src" attribs) →
  blank_src (set_attr "src" v attribs) = blank_src attribs.
Proof.
  induction attribs as [|[k old] rest IH]; simpl.
  - by intros [? ?].
  - destruct (String.eqb k "src") eqn:Hk; simpl.
    + intros _. by rewrite Hk.
    + intros Hsome. by rewrite Hk, IH.
Qed.

Lemma get_attr_set_attr (key v : string) (attribs : list (string * string)) :
  get_attr key (set_attr key v attribs) = Some v.
Proof.
  induction attribs as [|[k old] rest IH]; simpl.
  - by rewrite String.eqb_refl.
  - destruct (String.eqb k key) eqn:Hk; simpl; by rewrite Hk.
Qed.

Section Fragment.
Context `{Host}.

(** The children loop inside [each_img] is [each_imgs]. *)
Lemma each_img_element (o : options) name attribs children :
  each_img o (Element name attribs children) =
  (attribs' ←
     (if String.eqb name "img"
      then src ← processSrc (get_attr "src" attribs) o;
           mret (set_attr "src" src attribs)
      else mret attribs);
   children' ← each_imgs o children;
   mret (Element name attribs' children')).
Proof.
  simpl. destruct (if String.eqb name "img" then _ else _) as [attribs'|e];
    simpl; [|done].
  assert (Heq : ∀ l,
    (fix each_imgs (l : list node) : result (list node) :=
       match l with
       | [] => mret []
       | c :: rest =>
           c' ← each_img o c; rest' ← each_imgs rest; mret (c' :: rest')
       end) l = each_imgs o l).
  { induction l as [|c l IHl]; simpl; [done | by rewrite IHl]. }
  by rewrite Heq.
Qed.

Lemma each_img_no_img (o : options) (n : node) :
  has_img n = false → each_img o n = Ok n.
Proof.
  induction n as [name attribs children IH| | |] using node_forall_ind;
    try done.
  rewrite each_img_element. simpl. rewrite orb_false_iff. intros [-> Hkids].
  simpl. assert (each_imgs o children = Ok children) as ->; [|done].
  induction IH as [|c cs Hc _ IHcs]; [done |].
  simpl in Hkids. apply orb_false_iff in Hkids as [Hc' Hcs'].
  simpl. by rewrite Hc, IHcs.
Qed.

Lemma each_imgs_no_img (o : options) (d : dom) :
  existsb has_img d = false → each_imgs o d = Ok d.
Proof.
  induction d as [|c cs IH]; [done |]. simpl. rewrite orb_false_iff.
  intros [Hc Hcs]. by rewrite each_img_no_img, IH.
Qed.

Lemma each_img_mask (o : options) (n n' : node) :
  each_img o n = Ok n' → mask_src n' = mask_src n.
Proof.
  revert n'.
  induction n as [name attribs children IH| | |] using node_forall_ind;
    try by intros n' [= <-].
  intros n'. rewrite each_img_element.
  assert (Hkids : ∀ cs', each_imgs o children = Ok cs' →
                         map mask_src cs' = map mask_src children).
  { induction IH as [|c cs Hc _ IHcs]; simpl; [by intros cs' [= <-] |].
    intros cs'. destruct (each_img o c) as [c'|e]; simpl; [|done].
    destruct (each_imgs o cs) as [cs''|e]; simpl; [|done].
    intros [= <-]. simpl. by rewrite (Hc c'), (IHcs cs''). }
  destruct (String.eqb name "img") eqn:Himg.
  - destruct (get_attr "src" attribs) as [src|] eqn:Hsrc; [|done].
    destruct (processSrc (Some src) o) as [src'|e]; simpl; [|done].
    destruct (each_imgs o children) as [cs'|e]; simpl; [|done].
    intros [= <-]. simpl. rewrite Himg, (Hkids cs') by done.
    rewrite blank_src_set_attr; [done | by rewrite Hsrc].
  - simpl. destruct (each_imgs o children) as [cs'|e]; simpl; [|done].
    intros [= <-]. simpl. by rewrite Himg, (Hkids cs').
Qed.

Lemma each_imgs_mask (o : options) (d d' : dom) :
  each_imgs o d = Ok d' → map mask_src d' = map mask_src d.
Proof.
  revert d'. induction d as [|c cs IH]; simpl; [by intros d' [= <-] |].
  intros d'. destruct (each_img o c) as [c'|e] eqn:Hc; simpl; [|done].
  destruct (each_imgs o cs) as [cs'|e]; simpl; [|done].
  intros [= <-]. simpl. by rewrite (each_img_mask o c c'), (IH cs').
Qed.

(** What the resolver returns for a [src], with an asset directory. *)
Lemma processSrc_resolved (o : options) (dir : string) (old : value)
    (s' : string) :
  assetDir o = Some dir → processSrc old o = Ok s' →
  resolved_src dir old (Some s').
Proof.
  intros Hdir. destruct old as [s|]; [|done].
  rewrite processSrc_string, Hdir. intros Hs'. exists s. split; [done |].
  destruct (truthy (url_parse_protocol s)); simpl in Hs'.
  - destruct (includes "http:" s || includes "https:" s);
      injection Hs' as <-; split; (by left) || (by right) || done.
  - injection Hs' as <-. split; [by right | done].
Qed.

(** Every [img] of a tree the traversal returns has its [src] resolved. *)
Lemma each_img_resolved (o : options) (dir : string) (n n' : node) :
  assetDir o = Some dir → each_img o n = Ok n' →
  Forall2 (resolved_src dir) (img_srcs n) (img_srcs n').
Proof.
  intros Hdir. revert n'.
  induction n as [name attribs children IH| | |] using node_forall_ind;
    try (intros n' [= <-]; constructor).
  intros n'. rewrite each_img_element.
  assert (Hkids : ∀ cs', each_imgs o children = Ok cs' →
    Forall2 (resolved_src dir)
            (flat_map img_srcs children) (flat_map img_srcs cs')).
  { induction IH as [|c cs Hc _ IHcs]; simpl.
    - intros cs' [= <-]. constructor.
    - intros cs'. destruct (each_img o c) as [c'|e]; simpl; [|done].
      destruct (each_imgs o cs) as [cs''|e]; simpl; [|done].
      intros [= <-]. simpl. apply Forall2_app; [by apply Hc | by apply IHcs]. }
  destruct (String.eqb name "img") eqn:Himg.
  - destruct (processSrc (get_attr "src" attribs) o) as [s|e] eqn:Hs;
      simpl; [|done].
    destruct (each_imgs o children) as [cs'|e]; simpl; [|done].
    intros [= <-]. simpl. rewrite Himg. simpl. constructor.
    + rewrite get_attr_set_attr. by apply (processSrc_resolved o).
    + by apply Hkids.
  - simpl. destruct (each_imgs o children) as [cs'|e]; simpl; [|done].
    intros [= <-]. simpl. rewrite Himg. simpl. by apply Hkids.
Qed.

Lemma each_imgs_resolved (o : options) (dir : string) (d d' : dom) :
  assetDir o = Some dir → each_imgs o d = Ok d' →
  Forall2 (resolved_src dir) (flat_map img_srcs d) (flat_map img_srcs d').
Proof.
  intros Hdir. revert d'. induction d as [|c cs IH]; simpl.
  - intros d' [= <-]. constructor.
  - intros d'. destruct (each_img o c) as [c'|e] eqn:Hc; simpl; [|done].
    destruct (each_imgs o cs) as [cs'|e]; simpl; [|done].
    intros [= <-]. simpl.
    apply Forall2_app; [by apply (each_img_resolved o) | by apply IH].
Qed.

Lemma each_img_fails (o : options) (n : node) :
  imgs_have_src n = false → ∃ e, each_img o n = Throw e.
Proof.
  induction n as [name attribs children IH| | |] using node_forall_ind;
    try done.
  rewrite each_img_element. simpl. rewrite andb_false_iff.
  destruct (String.eqb name "img").
  - destruct (get_attr "src" attribs) as [src|] eqn:Hsrc.
    + intros [Hno | Hkids]; [by rewrite bool_decide_eq_false in Hno; destruct Hno |].
      destruct (processSrc (Some src) o) as [src'|e]; simpl; [|by eexists].
      assert (∃ e, each_imgs o children = Throw e) as [e ->]; [|by eexists].
      clear Hsrc. induction IH as [|c cs Hc _ IHcs]; [done |].
      simpl in Hkids. apply andb_false_iff in Hkids as [Hc' | Hcs].
      * destruct (Hc Hc') as [e He]. exists e. simpl. by rewrite He.
      * destruct (IHcs Hcs) as [e He]. simpl.
        destruct (each_img o c); simpl; [rewrite He|]; by eexists.
    + intros _. rewrite processSrc_undefined. by eexists.
  - intros [? | Hkids]; [done |]. simpl.
    assert (∃ e, each_imgs o children = Throw e) as [e ->]; [|by eexists].
    induction IH as [|c cs Hc _ IHcs]; [done |].
    simpl in Hkids. apply andb_false_iff in Hkids as [Hc' | Hcs].
    * destruct (Hc Hc') as [e He]. exists e. simpl. by rewrite He.
    * destruct (IHcs Hcs) as [e He]. simpl.
      destruct (each_img o c); simpl; [rewrite He|]; by eexists.
Qed.

Lemma each_imgs_fails (o : options) (d : dom) :
  forallb imgs_have_src d = false → ∃ e, each_imgs o d = Throw e.
Proof.
  induction d as [|c cs IH]; [done |]. simpl. rewrite andb_false_iff.
  intros [Hc | Hcs].
  - destruct (each_img_fails o c Hc) as [e ->]. by eexists.
  - destruct (IH Hcs) as [e He].
    destruct (each_img o c); simpl; [rewrite He|]; by eexists.
Qed.

(** C4, as the program has it.  On a fragment without [img] elements the
    resolver changes nothing in the document: its output is the
    serialization of the parsed input, whatever the serializer makes of it,
    so that it returns the input itself exactly when printing what was
    parsed gives the input back.  On every fragment, what the resolver
    returns is the serialization of a tree that differs from the parsed
    input in the values of the [src] attributes of [img] elements only: the
    elements, their order, their other attributes and the text are as they
    were parsed. *)
Theorem C4_resolver_preserves_content (html : string) (o : options) :
  let doc := cheerio_load html in
  (existsb has_img doc = false →
   qualifyImgSources html o = Ok (cheerio_html doc) ∧
   (qualifyImgSources html o = Ok html ↔ cheerio_html doc = html)) ∧
  (∀ out, qualifyImgSources html o = Ok out →
   ∃ doc', out = cheerio_html doc' ∧ map mask_src doc' = map mask_src doc).
Proof.
  intros doc. unfold qualifyImgSources. fold doc. split.
  - intros Hno. rewrite each_imgs_no_img by done. simpl.
    split; [done |]. split; [by intros [= ->] | by intros ->].
  - intros out. destruct (each_imgs o doc) as [doc'|e] eqn:Hdoc'; [|done].
    intros [= <-]. exists doc'. split; [done | by apply (each_imgs_mask o)].
Qed.

(** An [img] without [src] makes the resolver throw. *)
Lemma qualifyImgSources_missing_src (html : string) (o : options) :
  forallb imgs_have_src (cheerio_load html) = false →
  ∃ e, qualifyImgSources html o = Throw e.
Proof.
  intros Hno. unfold qualifyImgSources.
  destruct (each_imgs_fails o _ Hno) as [e ->]. by eexists.
Qed.

End Fragment.

Lemma C4_resolver_preserves_content_witness :
  let o := with_assetDir (Some "/work") empty_options in
  let html := "<b>Logo</b> <img src=logo.png> and more" in
  qualifyImgSources "<b>no image</b>" o = Ok "<b>no image</b>" ∧
  (∃ doc', cheerio_html [Text "<b>Logo</b> ";
                         Element "img" [("src", "file:///work/logo.png")] [];
                         Text " and more"] = cheerio_html doc' ∧
           map mask_src doc' = map mask_src (cheerio_load html)).
Proof.
  intros o html. split.
  - refine (proj2 (proj2 (proj1
              (C4_resolver_preserves_content "<b>no image</b>" o) _)) _).
    + vm_compute. reflexivity.
    + vm_compute. reflexivity.
  - apply (proj2 (C4_resolver_preserves_content html o)).
    vm_compute. reflexivity.
Defined.

(** C4 as the specification has it fails: the output of the resolver is not
    the input up to white space.  On a host whose document engine treats the
    void tag [<br />] as cheerio does, parsing it as an element without
    content and printing it as [<br>], the fragment [<br />], which has no
    [img], comes back as [<br>]: the two differ in more than white space. *)
Lemma C4_output_is_not_the_input :
  let o := with_assetDir (Some "/docs") empty_options in
  existsb has_img (@cheerio_load void_tag_host "<br />") = false ∧
  qualifyImgSources (H := void_tag_host) "<br />" o = Ok "<br>" ∧
  without_whitespace "<br>" ≠ without_whitespace "<br />".
Proof. vm_compute. split_and!; [reflexivity | reflexivity | discriminate]. Qed.

(** ** Steps of a promise chain *)

Lemma bind_unfold {A B} (m : io A) (k : A → io B) (w : world) :
  (m ≫= k) w =
  match m w with
  | (w', Ok a) => k a w'
  | (w', Throw e) => (w', Throw e)
  end.
Proof. done. Qed.

Lemma bind_ok {A B} (m : io A) (k : A → io B) (w w1 : world) (a : A) :
  m w = (w1, Ok a) → (m ≫= k) w = k a w1.
Proof. intros Hm. by rewrite bind_unfold, Hm. Qed.

Lemma bind_throw {A B} (m : io A) (k : A → io B) (w w1 : world) (e : error) :
  m w = (w1, Throw e) → (m ≫= k) w = (w1, Throw e).
Proof. intros Hm. by rewrite bind_unfold, Hm. Qed.

(** A chain that resolves went through both of its parts. *)
Lemma bind_ok_inv {A B} (m : io A) (k : A → io B) (w w' : world) (b : B) :
  (m ≫= k) w = (w', Ok b) →
  ∃ w1 a, m w = (w1, Ok a) ∧ k a w1 = (w', Ok b).
Proof.
  rewrite bind_unfold. destruct (m w) as [w1 [a|e]]; [|done]. by exists w1, a.
Qed.

Lemma lift_ok_inv {A} (r : result A) (w w' : world) (a : A) :
  lift r w = (w', Ok a) → r = Ok a ∧ w' = w.
Proof. unfold lift. by intros [= <- ->]. Qed.

Lemma mret_ok_inv {A} (a a' : A) (w w' : world) :
  (mret a : io A) w = (w', Ok a') → a' = a ∧ w' = w.
Proof. by intros [= <- <-]. Qed.

Lemma read_ok (ev : string → event) (syscall p data : string) (w : world) :
  files w !! p = Some data → read ev syscall p w = (record (ev p) w, Ok data).
Proof. unfold read. simpl. by intros ->. Qed.

Lemma read_missing (ev : string → event) (syscall p : string) (w : world) :
  files w !! p = None →
  read ev syscall p w = (record (ev p) w, Throw (ENOENT syscall p)).
Proof. unfold read. simpl. by intros ->. Qed.

Lemma read_ok_inv (ev : string → event) (syscall p data : string) (w w' : world) :
  read ev syscall p w = (w', Ok data) →
  files w !! p = Some data ∧ w' = record (ev p) w.
Proof.
  unfold read. simpl. destruct (files w !! p) as [d|]; [|done].
  by intros [= <- <-].
Qed.

Lemma engine_ok (s : stage) (ev : event) (effect : world → world) (w : world) :
  fault w s = None → engine s ev effect w = (effect (record ev w), Ok ()).
Proof. unfold engine. simpl. by intros ->. Qed.

Lemma engine_fails (s : stage) (ev : event) (effect : world → world)
    (w : world) (e : error) :
  fault w s = Some e → engine s ev effect w = (record ev w, Throw e).
Proof. unfold engine. simpl. by intros ->. Qed.

(** ** The style composer *)

Section Styles.
Context `{Host}.

Lemma logged_nil (w : world) : logged [] w = w.
Proof. destruct w. unfold logged. simpl. by rewrite app_nil_r. Qed.

Lemma logged_record (evs : list event) (e : event) (w : world) :
  logged evs (record e w) = logged (e :: evs) w.
Proof. unfold logged, record. simpl. by rewrite <- app_assoc. Qed.

(** When every sheet can be read, the loop appends one block per sheet, in
    the order of the list, and only reads. *)
Lemma getCssAsHtml_loop_reads (sheets : list string) :
  ∀ (contents : list string) (styleHtml : string) (w : world),
  Forall2 (λ p c, files w !! p = Some c) sheets contents →
  getCssAsHtml_loop styleHtml sheets w =
  (logged (EvReadFileSync <$> sheets) w,
   Ok (styleHtml +:+
       String.concat "" ((λ c, "<style>" +:+ c +:+ "</style>") <$> contents))).
Proof.
  induction sheets as [|p sheets IH]; intros contents styleHtml w Hall.
  - apply Forall2_nil_inv_l in Hall as ->. simpl.
    by rewrite logged_nil, append_nil_r.
  - apply Forall2_cons_inv_l in Hall as (c & contents' & Hp & Hall & ->).
    simpl getCssAsHtml_loop. unfold readFileSync.
    rewrite (bind_ok _ _ _ _ _ (read_ok _ _ _ _ _ Hp)).
    rewrite (IH contents'); [|done].
    rewrite logged_record. f_equal. f_equal.
    rewrite append_assoc. f_equal.
    destruct contents' as [|c' cs]; simpl; [by rewrite append_nil_r |].
    by rewrite !append_assoc.
Qed.

(** A sheet that cannot be read stops the loop with the I/O error. *)
Lemma getCssAsHtml_loop_missing (sheets : list string) :
  ∀ (styleHtml : string) (w : world) (p : string),
  p ∈ sheets → files w !! p = None →
  ∃ w' q, getCssAsHtml_loop styleHtml sheets w = (w', Throw (ENOENT "open" q))
          ∧ files w' = files w.
Proof.
  induction sheets as [|q sheets IH]; intros styleHtml w p Hin Hp.
  - by apply elem_of_nil in Hin.
  - simpl getCssAsHtml_loop. unfold readFileSync.
    destruct (files w !! q) as [c|] eqn:Hq.
    + rewrite (bind_ok _ _ _ _ _ (read_ok _ _ _ _ _ Hq)).
      apply elem_of_cons in Hin as [-> | Hin]; [congruence |].
      destruct (IH (styleHtml +:+ "<style>" +:+ c +:+ "</style>")
                   (record (EvReadFileSync q) w) p Hin Hp)
        as (w' & q' & -> & Hfiles).
      by exists w', q'.
    + rewrite (bind_throw _ _ _ _ _ (read_missing _ _ _ _ Hq)).
      by eexists _, q.
Qed.

Lemma getAllStyles_sheets (o : options) :
  getAllStyles o = getCssAsHtml (selected_sheets o).
Proof.
  unfold getAllStyles, selected_sheets, push.
  destruct (ghStyle o), (defaultStyle o), (styles o) as [[|c s]|]; done.
Qed.

End Styles.

Lemma concat_empty_cons (x : string) (xs : list string) :
  String.concat "" (x :: xs) = x +:+ String.concat "" xs.
Proof. destruct xs; simpl; [by rewrite append_nil_r | done]. Qed.

Section StyleOrder.
Context `{Host}.

(** C6.  When the selected stylesheets can be read, the composed style HTML
    is the concatenation of one [<style>] block per file, holding the text
    of the file as it is, in this order: the GitHub stylesheet if and only if
    [ghStyle] is set, the highlighting stylesheet always, the default
    stylesheet if and only if [defaultStyle] is set, and last the user's
    stylesheet if and only if [styles] is given.  Composing only reads. *)
Theorem C6_style_order (o : options) (w : world) (gh hl df us : string) :
  (ghStyle o = true →
   files w !! path_join module_dirname "/assets/github-markdown-css.css" = Some gh) →
  files w !! path_join module_dirname "/assets/highlight/styles/github.css" = Some hl →
  (defaultStyle o = true →
   files w !! path_join module_dirname "/assets/default.css" = Some df) →
  (∀ p, styles o = Some p → truthy (styles o) = true → files w !! p = Some us) →
  getAllStyles o w =
  (logged (EvReadFileSync <$> selected_sheets o) w,
   Ok ((if ghStyle o then "<style>" +:+ gh +:+ "</style>" else "") +:+
       ("<style>" +:+ hl +:+ "</style>") +:+
       (if defaultStyle o then "<style>" +:+ df +:+ "</style>" else "") +:+
       (if truthy (styles o) then "<style>" +:+ us +:+ "</style>" else ""))).
Proof.
  intros Hgh Hhl Hdf Hus. rewrite getAllStyles_sheets. unfold getCssAsHtml.
  rewrite (getCssAsHtml_loop_reads _
    ((if ghStyle o then [gh] else []) ++ [hl] ++
     (if defaultStyle o then [df] else []) ++
     (if truthy (styles o) then [us] else []))).
  - f_equal. f_equal. rewrite append_nil_l.
    destruct (ghStyle o), (defaultStyle o), (truthy (styles o)); simpl;
      rewrite ?concat_empty_cons; simpl; by rewrite ?append_nil_r, ?append_nil_l.
  - unfold selected_sheets.
    repeat apply Forall2_app.
    + destruct (ghStyle o); [|done]. constructor; [by apply Hgh | done].
    + by constructor.
    + destruct (defaultStyle o); [|done]. constructor; [by apply Hdf | done].
    + destruct (styles o) as [[|c s]|] eqn:Hst; simpl; try done.
      constructor; [by apply (Hus (String c s)) | done].
Qed.

(** A selected stylesheet that cannot be read is fatal. *)
Lemma getAllStyles_missing (o : options) (w : world) (p : string) :
  p ∈ selected_sheets o → files w !! p = None →
  ∃ w' q, getAllStyles o w = (w', Throw (ENOENT "open" q)) ∧ files w' = files w.
Proof.
  intros Hin Hp. rewrite getAllStyles_sheets.
  by apply (getCssAsHtml_loop_missing _ _ _ p).
Qed.

(** Whatever comes of it, composing the styles leaves the files and the
    browser as they were. *)
Lemma getCssAsHtml_loop_frame (sheets : list string) :
  ∀ (styleHtml : string) (w w' : world) (r : result string),
  getCssAsHtml_loop styleHtml sheets w = (w', r) →
  ∃ evs, w' = logged evs w.
Proof.
  induction sheets as [|p sheets IH]; intros styleHtml w w' r.
  - intros [= <- <-]. exists []. by rewrite logged_nil.
  - simpl getCssAsHtml_loop. rewrite bind_unfold. unfold readFileSync, read.
    simpl. destruct (files w !! p) as [c|].
    + intros Hrest. apply IH in Hrest as [evs ->].
      exists (EvReadFileSync p :: evs). by rewrite logged_record.
    + intros [= <- <-]. by exists [EvReadFileSync p].
Qed.

Lemma getAllStyles_frame (o : options) (w w' : world) (r : result string) :
  getAllStyles o w = (w', r) → ∃ evs, w' = logged evs w.
Proof. rewrite getAllStyles_sheets. apply getCssAsHtml_loop_frame. Qed.

End StyleOrder.

Lemma C6_style_order_witness :
  let o := Reference.request None None in
  let w := Reference.world_of [] Reference.no_fault in
  getAllStyles o w =
  (logged [EvReadFileSync "/pkg/assets/github-markdown-css.css";
           EvReadFileSync "/pkg/assets/highlight/styles/github.css"] w,
   Ok "<style>gh{}</style><style>hl{}</style>").
Proof.
  intros o w.
  refine (C6_style_order o w "gh{}" "hl{}" "" "" _ _ _ _);
    intros; by vm_compute.
Defined.

(** ** Missing paths *)

Section FailFast.
Context `{Host}.

(** C5.  When the source path or the destination path is absent (or empty),
    [convert] throws from the call itself, and the world is untouched: no
    file was read, written or deleted, and nothing was logged. *)
Theorem C5_missing_paths_fail_fast (arg : option options) (w : world) :
  let o := default empty_options arg in
  truthy (source o) = false ∨ truthy (destination o) = false →
  let e := Error (if truthy (source o)
                  then "Destination path must be provided"
                  else "Source path must be provided") in
  Index.convert arg w = (w, Thrown e) ∧ Part000.convert arg w = (w, Thrown e).
Proof.
  intros o Hmissing e. unfold Index.convert, Part000.convert. fold o.
  subst e. destruct (source o) as [[|c s]|]; simpl; try done.
  destruct Hmissing as [? | Hdst]; [done |].
  by rewrite !if_truthy_false.
Qed.

End FailFast.

Lemma C5_missing_paths_fail_fast_witness :
  let w := Reference.world_of [("/work/doc.md", "# Title")] Reference.no_fault in
  let arg := Some (with_assetDir None
                     {| source := None; destination := Some "/out/doc.pdf";
                        header := None; footer := None; styles := None;
                        debug := None; ghStyle := true; defaultStyle := true;
                        noEmoji := false; pdf := None; assetDir := None |}) in
  Index.convert arg w = (w, Thrown (Error "Source path must be provided")) ∧
  Part000.convert arg w = (w, Thrown (Error "Source path must be provided")).
Proof.
  intros w arg.
  apply (C5_missing_paths_fail_fast arg w). left. reflexivity.
Defined.

(** ** The render orchestrator *)

Section Render.
Context `{Host}.

Lemma Index_puppetOptions_path (o : options) (po : Puppet.options) :
  Index.puppetOptions o = Ok po → Puppet.path po = destination o.
Proof.
  unfold Index.puppetOptions. destruct (pdf o) as [p|]; [|done].
  destruct (Pdf.border p); [|done]. by intros [= <-].
Qed.

Lemma Part000_puppetOptions_path (o : options) (po : Puppet.options) :
  Part000.puppetOptions o = Ok po → Puppet.path po = destination o.
Proof.
  unfold Part000.puppetOptions. destruct (pdf o) as [p|]; [|done].
  destruct (Pdf.border p); [|done]. by intros [= <-].
Qed.

Lemma temp_file_present (temp dst html bytes : string) (f : gmap string string) :
  is_Some ((<[dst := bytes]> (<[temp := html]> f)) !! temp).
Proof.
  destruct (decide (dst = temp)) as [->|Hne].
  - rewrite lookup_insert_eq. by eexists.
  - rewrite lookup_insert_ne, lookup_insert_eq by done. by eexists.
Qed.

(** Runs a render hypothesis [Hrun] up to the first browser operation whose
    outcome is not known yet. *)
Ltac render_step Hrun :=
  rewrite ?bind_unfold in Hrun; simpl in Hrun.

Ltac render_inv Hrun path_lemma :=
  unfold writeFile, puppeteer_launch, browser_newPage, page_goto, page_pdf,
    browser_close, unlinkSync, engine, lift in Hrun;
  render_step Hrun;
  match type of Hrun with
  | context [fault ?w Launch] => destruct (fault w Launch) eqn:HL; [done |]
  end;
  render_step Hrun;
  match type of Hrun with
  | context [fault ?w NewPage] => destruct (fault w NewPage) eqn:HN; [done |]
  end;
  render_step Hrun;
  match type of Hrun with
  | context [fault ?w Goto] => destruct (fault w Goto) eqn:HG; [done |]
  end;
  render_step Hrun;
  match type of Hrun with
  | context [lift ?r] => idtac
  | context [match ?r with Ok _ => _ | Throw _ => _ end] =>
      let po := fresh "po" in
      let Hpo := fresh "Hpo" in
      destruct r as [po|] eqn:Hpo; [|done];
      pose proof (path_lemma _ _ Hpo)
  end;
  render_step Hrun;
  match type of Hrun with
  | context [fault ?w Pdf] => destruct (fault w Pdf) eqn:HP; [done |]
  end;
  match goal with
  | Hp : Puppet.path _ = _ |- _ => rewrite Hp in Hrun
  end;
  match goal with
  | Hdst : destination _ = Some _ |- _ => rewrite Hdst in Hrun
  end;
  rewrite lookup_insert_eq in Hrun;
  render_step Hrun;
  match type of Hrun with
  | context [fault ?w Close] => destruct (fault w Close) eqn:HC; [done |]
  end;
  render_step Hrun.

Lemma all_stages (w : world) :
  fault w Launch = None → fault w NewPage = None → fault w Goto = None →
  fault w Pdf = None → fault w Close = None → ∀ s, fault w s = None.
Proof. by intros ? ? ? ? ? []. Qed.

Ltac render_finish Hrun :=
  match type of Hrun with
  | context [(<[?dst := ?bytes]> (<[?temp := ?html]> ?f)) !! ?temp] =>
      let x := fresh "x" in
      let Hx := fresh "Hx" in
      destruct (temp_file_present temp dst html bytes f) as [x Hx];
      rewrite Hx in Hrun
  end;
  simpl in Hrun; injection Hrun as <- <-;
  do 2 eexists; split_and!; [done | done | by apply all_stages | done |];
  unfold rendered, render_events, set_files, record; simpl; f_equal;
  by rewrite <- !app_assoc.

Lemma Index_createPdf_resolved_inv (html : string) (o : options)
    (w w' : world) (v : string) :
  Index.createPdf html o w = (w', Ok v) →
  ∃ dst po, destination o = Some dst ∧ Index.puppetOptions o = Ok po ∧
            (∀ s, fault w s = None) ∧ v = dst ∧ w' = rendered html dst po w.
Proof.
  unfold Index.createPdf. destruct (destination o) as [dst|] eqn:Hdst; [|done].
  intros Hrun. render_inv Hrun Index_puppetOptions_path. render_finish Hrun.
Qed.

Lemma Part000_createPdf_resolved_inv (html : string) (o : options)
    (w w' : world) (v : string) :
  Part000.createPdf html o w = (w', Ok v) →
  ∃ dst po, destination o = Some dst ∧ Part000.puppetOptions o = Ok po ∧
            (∀ s, fault w s = None) ∧ v = dst ∧ w' = rendered html dst po w.
Proof.
  unfold Part000.createPdf. destruct (destination o) as [dst|] eqn:Hdst; [|done].
  intros Hrun. render_inv Hrun Part000_puppetOptions_path. render_finish Hrun.
Qed.

Lemma first_fault_before (w : world) (s s' : stage) (e : error) :
  first_fault w s e → stage_index s' < stage_index s → fault w s' = None.
Proof. intros [_ Hbefore]. apply Hbefore. Qed.

(** Closes the goal [abandoned run w html dst s] once [run] is computed. *)
Ltac abandoned_here :=
  unfold abandoned; do 3 eexists;
  split_and!;
  [ reflexivity
  | simpl; rewrite <- ?app_assoc; reflexivity
  | simpl; rewrite ?not_elem_of_cons; split_and?; try done;
    apply not_elem_of_nil
  | simpl; rewrite ?not_elem_of_cons; split_and?; try done;
    apply not_elem_of_nil
  | simpl; by rewrite lookup_insert_eq
  | done
  | done ].

Ltac render_fails Hff Hdst :=
  rewrite Hdst;
  pose proof (proj1 Hff) as Hhere;
  pose proof (first_fault_before _ _ Launch _ Hff) as HL;
  pose proof (first_fault_before _ _ NewPage _ Hff) as HN;
  pose proof (first_fault_before _ _ Goto _ Hff) as HG;
  simpl in HL, HN, HG;
  unfold writeFile, puppeteer_launch, browser_newPage, page_goto, page_pdf,
    browser_close, unlinkSync, engine, lift;
  repeat (rewrite ?bind_unfold; simpl;
          rewrite ?Hhere, ?HL, ?HN, ?HG by lia).

(** C2, as the program has it.  When a browser operation after the writing
    of the temporary file fails (launch, page creation, navigation or PDF
    emission), the rest of the chain is skipped and the promise is rejected
    without cleanup: [browser.close] and [fs.unlinkSync] are not attempted,
    the temporary file stays, and a browser that was launched, with its page,
    stays open.  Both modules behave so. *)
Theorem C2_failure_skips_cleanup (html : string) (o : options) (w : world)
    (dst : string) (s : stage) (e : error) :
  destination o = Some dst → first_fault w s e → s ≠ Close →
  abandoned (Index.createPdf html o w) w html dst s ∧
  abandoned (Part000.createPdf html o w) w html dst s.
Proof.
  intros Hdst Hff Hs. unfold Index.createPdf, Part000.createPdf.
  split; destruct s; try done.
  - render_fails Hff Hdst. abandoned_here.
  - render_fails Hff Hdst. abandoned_here.
  - render_fails Hff Hdst. abandoned_here.
  - render_fails Hff Hdst.
    destruct (Index.puppetOptions o);
      repeat (rewrite ?bind_unfold; simpl; rewrite ?Hhere); abandoned_here.
  - render_fails Hff Hdst. abandoned_here.
  - render_fails Hff Hdst. abandoned_here.
  - render_fails Hff Hdst. abandoned_here.
  - render_fails Hff Hdst.
    destruct (Part000.puppetOptions o);
      repeat (rewrite ?bind_unfold; simpl; rewrite ?Hhere); abandoned_here.
Qed.

End Render.

(** ** The whole conversion *)

Section Convert.
Context `{Host}.

(** The resolver reads nothing of the request but the asset directory. *)
Lemma processSrc_assetDir (src : value) (o o' : options) :
  assetDir o = assetDir o' → processSrc src o = processSrc src o'.
Proof. unfold processSrc. by intros ->. Qed.

Lemma each_img_assetDir (o o' : options) (n : node) :
  assetDir o = assetDir o' → each_img o n = each_img o' n.
Proof.
  intros Hdir.
  induction n as [name attribs children IH| | |] using node_forall_ind;
    try done.
  rewrite !each_img_element.
  rewrite (processSrc_assetDir _ o o' Hdir).
  assert (each_imgs o children = each_imgs o' children) as ->; [|done].
  induction IH as [|c cs Hc _ IHcs]; [done |]. simpl. by rewrite Hc, IHcs.
Qed.

Lemma qualifyImgSources_assetDir (html : string) (o o' : options) :
  assetDir o = assetDir o' → qualifyImgSources html o = qualifyImgSources html o'.
Proof.
  intros Hdir. unfold qualifyImgSources.
  assert (∀ d, each_imgs o d = each_imgs o' d) as ->; [|done].
  induction d as [|c cs IH]; [done |]. simpl.
  by rewrite (each_img_assetDir o o' c Hdir), IH.
Qed.

Lemma qualified_in_intro (o : options) (dir html out : string) :
  assetDir o = Some dir → qualifyImgSources html o = Ok out →
  qualified_in dir html out.
Proof.
  intros Hdir Hq. split.
  - by rewrite <- (qualifyImgSources_assetDir html o).
  - unfold qualifyImgSources in Hq.
    destruct (each_imgs o (cheerio_load html)) as [doc'|e] eqn:Hdoc'; [|done].
    injection Hq as <-. exists doc'. split_and!; [done | |].
    + by apply (each_imgs_mask o).
    + by apply (each_imgs_resolved o).
Qed.

Lemma logged_logged (a b : list event) (w : world) :
  logged a (logged b w) = logged (b ++ a) w.
Proof. unfold logged. simpl. by rewrite <- app_assoc. Qed.

Lemma record_logged (e : event) (w : world) : record e w = logged [e] w.
Proof. done. Qed.

Lemma readFile_ok_inv (p data : string) (w w' : world) :
  readFile p w = (w', Ok data) →
  files w !! p = Some data ∧ w' = logged [EvReadFile p] w.
Proof. apply read_ok_inv. Qed.

Lemma prepareHeader_inv (o : options) (dir : string) (w w' : world)
    (hdr : value) :
  assetDir o = Some dir →
  Part000.prepareHeader o w = (w', Ok hdr) →
  (∃ evs, w' = logged evs w) ∧ produced_header w dir (header o) hdr.
Proof.
  intros Hdir. unfold Part000.prepareHeader, produced_header.
  destruct (header o) as [[|c p]|]; simpl;
    try (intros [= <- <-]; split; [exists []; by rewrite logged_nil | done]).
  intros Hrun.
  apply bind_ok_inv in Hrun as (w1 & layout & Hlayout & Hrun).
  apply readFile_ok_inv in Hlayout as [Hlayout ->].
  apply bind_ok_inv in Hrun as (w2 & content & Hcontent & Hrun).
  apply readFile_ok_inv in Hcontent as [Hcontent ->].
  apply bind_ok_inv in Hrun as (w3 & prepared & Hprepared & Hrun).
  apply lift_ok_inv in Hprepared as [Hprepared ->].
  injection Hrun as <- <-. rewrite logged_logged. split; [by eexists |].
  exists (String c p), layout, content, prepared. split_and!; try done.
  by apply (qualified_in_intro o).
Qed.

Lemma prepareFooter_inv (o : options) (dir : string) (w w' : world)
    (ftr : value) :
  assetDir o = Some dir →
  Part000.prepareFooter o w = (w', Ok ftr) →
  (∃ evs, w' = logged evs w) ∧ produced_footer w dir (footer o) ftr.
Proof.
  intros Hdir. unfold Part000.prepareFooter, produced_footer.
  destruct (footer o) as [[|c p]|]; simpl;
    try (intros [= <- <-]; split; [exists []; by rewrite logged_nil | done]).
  intros Hrun.
  apply bind_ok_inv in Hrun as (w1 & content & Hcontent & Hrun).
  apply readFile_ok_inv in Hcontent as [Hcontent ->].
  apply bind_ok_inv in Hrun as (w2 & prepared & Hprepared & Hrun).
  apply lift_ok_inv in Hprepared as [Hprepared ->].
  injection Hrun as <- <-. split; [by eexists |].
  exists (String c p), content, prepared. split_and!; try done.
  by apply (qualified_in_intro o).
Qed.

(** Everything a resolved conversion of the sibling module went through. *)
Lemma Part000_convert_resolved_inv (arg : option options) (w w' : world)
    (v : string) :
  Part000.convert arg w = (w', Resolved v) →
  ∃ src dst css hdr ftr layout md content po evs,
    let o := default empty_options arg in
    let dir := path_dirname (path_resolve [src]) in
    source o = Some src ∧ destination o = Some dst ∧ v = dst ∧
    produced_header w dir (header o) hdr ∧
    produced_footer w dir (footer o) ftr ∧
    files w !! Part000.layoutPath = Some layout ∧
    files w !! src = Some md ∧
    qualified_in dir (parseMarkdownToHtml md (negb (noEmoji o))) content ∧
    Part000.puppetOptions
      (with_footer ftr (with_header hdr (with_assetDir (Some dir) o))) = Ok po ∧
    (∀ s, fault w s = None) ∧
    w' = rendered
           (Handlebars_compile layout
              [("highlightJs", Plain highlightJs);
               ("css", SafeString css);
               ("body", SafeString content)])
           dst po (logged evs w).
Proof.
  unfold Part000.convert. set (o := default empty_options arg).
  destruct (source o) as [[|c0 src0]|] eqn:Hsrc; simpl; try done.
  destruct (destination o) as [[|c1 dst0]|] eqn:Hdst; simpl; try done.
  set (src := String c0 src0) in *. set (dst := String c1 dst0) in *.
  set (o1 := with_assetDir (Some (path_dirname (path_resolve [src]))) o).
  destruct (getAllStyles o1 w) as [w1 [css|e]] eqn:Hcss; [|done].
  apply getAllStyles_frame in Hcss as [evs0 ->].
  unfold settle.
  match goal with
  | |- (let (_, _) := ?run in _) = _ → _ =>
      destruct run as [w2 [x|e]] eqn:Hrun; [|done]
  end.
  intros [= <- <-].
  apply bind_ok_inv in Hrun as (wa & hdr & Hhdr & Hrun).
  apply (prepareHeader_inv _ (path_dirname (path_resolve [src]))) in Hhdr
    as [[evs1 ->] Hhdr]; [|done].
  cbv zeta in Hrun.
  apply bind_ok_inv in Hrun as (wb & ftr & Hftr & Hrun).
  apply (prepareFooter_inv _ (path_dirname (path_resolve [src]))) in Hftr
    as [[evs2 ->] Hftr]; [|done].
  cbv zeta in Hrun.
  apply bind_ok_inv in Hrun as (wc & layout & Hlayout & Hrun).
  apply readFile_ok_inv in Hlayout as [Hlayout ->].
  cbv zeta in Hrun.
  apply bind_ok_inv in Hrun as (wd & md & Hmd & Hrun).
  apply readFile_ok_inv in Hmd as [Hmd ->].
  apply bind_ok_inv in Hrun as (we & content & Hcontent & Hrun).
  apply lift_ok_inv in Hcontent as [Hcontent ->].
  cbv zeta in Hrun.
  apply Part000_createPdf_resolved_inv in Hrun
    as (dst' & po & Hdst' & Hpo & Hok & -> & ->).
  simpl in Hdst'. rewrite Hdst in Hdst'. injection Hdst' as <-.
  rewrite !logged_logged.
  exists src, dst, css, hdr, ftr, layout, md, content, po.
  eexists. cbv zeta. fold o. fold o1. split_and!; try done.
  by apply (qualified_in_intro (with_footer ftr (with_header hdr o1))).
Qed.

Lemma read_fragment_inv (p : value) (w w' : world) (got : value) :
  if_truthy p (λ file, content ← readFile file; mret (Some content)) (mret None) w
    = (w', Ok got) →
  (∃ evs, w' = logged evs w) ∧
  if truthy p then ∃ file content, p = Some file ∧ files w !! file = Some content
                                   ∧ got = Some content
  else got = None.
Proof.
  destruct p as [[|c file]|]; simpl;
    try (intros [= <- <-]; split; [exists []; by rewrite logged_nil | done]).
  intros Hrun.
  apply bind_ok_inv in Hrun as (w1 & content & Hcontent & Hrun).
  apply readFile_ok_inv in Hcontent as [Hcontent ->].
  injection Hrun as <- <-. split; [by eexists |].
  by exists (String c file), content.
Qed.

Lemma bind_fragment_inv (o : options) (got : value) (key : string)
    (local local' : hb_context) :
  if_truthy got
    (λ content,
       prepared ← qualifyImgSources content o;
       mret (push local (key, SafeString prepared)))
    (mret local) = Ok local' →
  ∃ entry, local' = local ++ entry ∧
    match got with
    | Some content =>
        if truthy (Some content)
        then ∃ prepared, qualifyImgSources content o = Ok prepared ∧
                         entry = [(key, SafeString prepared)]
        else entry = []
    | None => entry = []
    end.
Proof.
  destruct got as [[|c content]|]; simpl;
    try (intros [= <-]; exists []; by rewrite app_nil_r).
  destruct (qualifyImgSources (String c content) o) as [prepared|e]; [|done].
  simpl. intros [= <-]. exists [(key, SafeString prepared)].
  split; [done | by exists prepared].
Qed.

Lemma bound_fragment_intro (w : world) (o : options) (dir : string)
    (p got : value) (key : string) (entry : hb_context) :
  assetDir o = Some dir →
  (if truthy p then ∃ file content, p = Some file ∧ files w !! file = Some content
                                    ∧ got = Some content
   else got = None) →
  match got with
  | Some content =>
      if truthy (Some content)
      then ∃ prepared, qualifyImgSources content o = Ok prepared ∧
                       entry = [(key, SafeString prepared)]
      else entry = []
  | None => entry = []
  end →
  bound_fragment w dir p key entry.
Proof.
  intros Hdir. unfold bound_fragment. destruct (truthy p).
  - intros (file & content & -> & Hfile & ->) Hentry.
    exists file, content. split_and!; try done.
    destruct (truthy (Some content)); [|done].
    destruct Hentry as (prepared & Hq & ->). exists prepared.
    split; [by apply (qualified_in_intro o) | done].
  - by intros ->.
Qed.

(** Everything a resolved conversion of [src/index.js] went through. *)
Lemma Index_convert_resolved_inv (arg : option options) (w w' : world)
    (v : string) :
  Index.convert arg w = (w', Resolved v) →
  ∃ src dst css hentry fentry layout md content po evs,
    let o := default empty_options arg in
    let dir := path_dirname (path_resolve [src]) in
    let html :=
      Handlebars_compile layout
        ([("highlightJs", Plain highlightJs); ("css", SafeString css)] ++
         hentry ++ fentry ++ [("body", SafeString content)]) in
    source o = Some src ∧ destination o = Some dst ∧ v = dst ∧
    bound_fragment w dir (header o) "header" hentry ∧
    bound_fragment w dir (footer o) "footer" fentry ∧
    files w !! Index.layoutPath = Some layout ∧
    files w !! src = Some md ∧
    qualified_in dir (parseMarkdownToHtml md (negb (noEmoji o))) content ∧
    Index.puppetOptions (with_assetDir (Some dir) o) = Ok po ∧
    (∀ s, fault w s = None) ∧
    w' = rendered html dst po
           (if_truthy (debug o)
              (λ p, set_files (<[p := html]> (files w))
                      (logged (evs ++ [EvWriteFileSync p html]) w))
              (logged evs w)).
Proof.
  unfold Index.convert. set (o := default empty_options arg).
  destruct (source o) as [[|c0 src0]|] eqn:Hsrc; simpl; try done.
  destruct (destination o) as [[|c1 dst0]|] eqn:Hdst; simpl; try done.
  set (src := String c0 src0) in *. set (dst := String c1 dst0) in *.
  set (o1 := with_assetDir (Some (path_dirname (path_resolve [src]))) o).
  destruct (getAllStyles o1 w) as [w1 [css|e]] eqn:Hcss; [|done].
  apply getAllStyles_frame in Hcss as [evs0 ->].
  unfold settle.
  match goal with
  | |- (let (_, _) := ?run in _) = _ → _ =>
      destruct run as [w2 [x|e]] eqn:Hrun; [|done]
  end.
  intros [= <- <-].
  apply bind_ok_inv in Hrun as (wa & layout & Hlayout & Hrun).
  apply readFile_ok_inv in Hlayout as [Hlayout ->].
  cbv zeta in Hrun.
  apply bind_ok_inv in Hrun as (wb & hgot & Hhgot & Hrun).
  apply read_fragment_inv in Hhgot as [[evs1 ->] Hhgot].
  apply bind_ok_inv in Hrun as (wc & local1 & Hlocal1 & Hrun).
  apply lift_ok_inv in Hlocal1 as [Hlocal1 ->].
  apply bind_fragment_inv in Hlocal1 as (hentry & -> & Hhentry).
  apply bind_ok_inv in Hrun as (wd & fgot & Hfgot & Hrun).
  apply read_fragment_inv in Hfgot as [[evs2 ->] Hfgot].
  apply bind_ok_inv in Hrun as (we & local2 & Hlocal2 & Hrun).
  apply lift_ok_inv in Hlocal2 as [Hlocal2 ->].
  apply bind_fragment_inv in Hlocal2 as (fentry & -> & Hfentry).
  apply bind_ok_inv in Hrun as (wf & md & Hmd & Hrun).
  apply readFile_ok_inv in Hmd as [Hmd ->].
  apply bind_ok_inv in Hrun as (wg & content & Hcontent & Hrun).
  apply lift_ok_inv in Hcontent as [Hcontent ->].
  cbv zeta in Hrun.
  apply bind_ok_inv in Hrun as (wh & [] & Hdebug & Hrun).
  apply Index_createPdf_resolved_inv in Hrun
    as (dst' & po & Hdst' & Hpo & Hok & -> & ->).
  simpl in Hdst'. rewrite Hdst in Hdst'. injection Hdst' as <-.
  rewrite !logged_logged in Hdebug.
  exists src, dst, css, hentry, fentry, layout, md, content, po.
  eexists. cbv zeta. fold o. fold o1.
  unfold push in *. rewrite <- !app_assoc in *.
  split_and!; try done.
  - by apply (bound_fragment_intro _ o1 _ _ hgot).
  - by apply (bound_fragment_intro _ o1 _ _ fgot).
  - by apply (qualified_in_intro o1).
  - destruct (debug o) as [[|c2 dbg]|]; simpl in *;
      injection Hdebug as <-; intros s; apply (Hok s).
  - f_equal.
    destruct (debug o) as [[|c2 dbg]|]; simpl in *;
      injection Hdebug as <-; try done.
    unfold set_files, record, logged. simpl. by rewrite <- !app_assoc.
Qed.

End Convert.

(** ** Success: the destination path and the temporary file *)

Section Success.
Context `{Host}.

Lemma rendered_temp_removed (html dst : string) (po : Puppet.options) (w : world) :
  files (rendered html dst po w) !! tempHtmlPath dst = None.
Proof. simpl. apply lookup_delete_eq. Qed.

(** C9.  A conversion that succeeds resolves with the destination path.  The
    transient HTML file is named [_temp.html] in the directory of the
    destination; it was written, and deleting it was the last operation
    before the promise resolved, so that it is gone afterwards; the browser
    that was launched has been closed.  Both modules behave so. *)
Theorem C9_resolves_with_destination (arg : option options) (w w' : world)
    (v : string) :
  Index.convert arg w = (w', Resolved v) ∨
  Part000.convert arg w = (w', Resolved v) →
  ∃ dst,
    destination (default empty_options arg) = Some dst ∧ v = dst ∧
    let temp := path_join (path_dirname dst) "_temp.html" in
    files w' !! temp = None ∧
    (∃ before html po,
       log w' = log w ++ before ++
                [EvWriteFile temp html; EvLaunch; EvNewPage;
                 EvGoto ("file:" +:+ temp) "networkidle2"; EvPdf po;
                 EvClose; EvUnlinkSync temp]) ∧
    live_browsers w' = live_browsers w ∧
    live_pages w' = live_pages w.
Proof.
  intros [Hrun | Hrun].
  - apply Index_convert_resolved_inv in Hrun
      as (src & dst & css & hentry & fentry & layout & md & content & po & evs
          & Hrun).
    cbv zeta in Hrun.
    destruct Hrun as (_ & Hdst & -> & _ & _ & _ & _ & _ & _ & _ & ->).
    exists dst. do 2 (split; [done |]). cbv zeta. fold (tempHtmlPath dst).
    split_and!.
    + apply rendered_temp_removed.
    + unfold rendered, render_events.
      destruct (debug (default empty_options arg)) as [[|c dbg]|]; simpl.
      * exists evs. eexists _, po. rewrite <- app_assoc. reflexivity.
      * eexists (evs ++ [_]), _, po. rewrite <- !app_assoc. reflexivity.
      * exists evs. eexists _, po. rewrite <- app_assoc. reflexivity.
    + by destruct (debug (default empty_options arg)) as [[|c dbg]|].
    + by destruct (debug (default empty_options arg)) as [[|c dbg]|].
  - apply Part000_convert_resolved_inv in Hrun
      as (src & dst & css & hdr & ftr & layout & md & content & po & evs
          & Hrun).
    cbv zeta in Hrun.
    destruct Hrun as (_ & Hdst & -> & _ & _ & _ & _ & _ & _ & _ & ->).
    exists dst. do 2 (split; [done |]). cbv zeta. fold (tempHtmlPath dst).
    split_and!; try done.
    + apply rendered_temp_removed.
    + unfold rendered, render_events. simpl.
      exists evs. eexists _, po. rewrite <- app_assoc. reflexivity.
Qed.

End Success.

Lemma C9_resolves_with_destination_witness :
  let w := Reference.world_of [("/work/doc.md", "# Title")] Reference.no_fault in
  let arg := Some (Reference.request None None) in
  let w' := (Part000.convert arg w).1 in
  ∃ dst,
    destination (default empty_options arg) = Some dst ∧ "/out/doc.pdf" = dst ∧
    let temp := path_join (path_dirname dst) "_temp.html" in
    files w' !! temp = None ∧
    (∃ before html po,
       log w' = log w ++ before ++
                [EvWriteFile temp html; EvLaunch; EvNewPage;
                 EvGoto ("file:" +:+ temp) "networkidle2"; EvPdf po;
                 EvClose; EvUnlinkSync temp]) ∧
    live_browsers w' = live_browsers w ∧
    live_pages w' = live_pages w.
Proof.
  intros w arg w'.
  apply (C9_resolves_with_destination arg w w' "/out/doc.pdf").
  right. vm_compute. reflexivity.
Defined.

(** ** Header and footer display *)

Section Display.
Context `{Host}.

(** C1, as the program has it.  In the module with per-page chrome the
    render parameters ask for header/footer display exactly when the header
    document or the footer document that was produced is a string that is
    not empty; the browser is given as [headerTemplate] the header layout
    applied to the qualified header fragment, and as [footerTemplate] the
    qualified footer fragment, [null] for a document that is absent or
    empty.  In [src/index.js] display is never asked for and no template is
    given, whatever header or footer the request names. *)
Theorem C1_display_follows_produced_documents (arg : option options)
    (w w' : world) (v : string) :
  (∀ o po, Part000.puppetOptions o = Ok po →
     Puppet.displayHeaderFooter po = truthy (header o) || truthy (footer o) ∧
     Puppet.headerTemplate po = or_else (header o) None ∧
     Puppet.footerTemplate po = or_else (footer o) None) ∧
  (∀ o po, Index.puppetOptions o = Ok po →
     Puppet.displayHeaderFooter po = false ∧
     Puppet.headerTemplate po = None ∧ Puppet.footerTemplate po = None) ∧
  (Part000.convert arg w = (w', Resolved v) →
   ∃ src hdr ftr po before html,
     let o := default empty_options arg in
     let dir := path_dirname (path_resolve [src]) in
     source o = Some src ∧
     produced_header w dir (header o) hdr ∧
     produced_footer w dir (footer o) ftr ∧
     log w' = log w ++ before ++ render_events html v po ∧
     Puppet.displayHeaderFooter po = truthy hdr || truthy ftr ∧
     Puppet.headerTemplate po = or_else hdr None ∧
     Puppet.footerTemplate po = or_else ftr None) ∧
  (Index.convert arg w = (w', Resolved v) →
   ∃ po before html,
     log w' = log w ++ before ++ render_events html v po ∧
     Puppet.displayHeaderFooter po = false ∧
     Puppet.headerTemplate po = None ∧ Puppet.footerTemplate po = None).
Proof.
  assert (HP : ∀ o po, Part000.puppetOptions o = Ok po →
     Puppet.displayHeaderFooter po = truthy (header o) || truthy (footer o) ∧
     Puppet.headerTemplate po = or_else (header o) None ∧
     Puppet.footerTemplate po = or_else (footer o) None).
  { intros o po. unfold Part000.puppetOptions.
    destruct (pdf o) as [p|]; [|done]. destruct (Pdf.border p); [|done].
    by intros [= <-]. }
  assert (HI : ∀ o po, Index.puppetOptions o = Ok po →
     Puppet.displayHeaderFooter po = false ∧
     Puppet.headerTemplate po = None ∧ Puppet.footerTemplate po = None).
  { intros o po. unfold Index.puppetOptions.
    destruct (pdf o) as [p|]; [|done]. destruct (Pdf.border p); [|done].
    by intros [= <-]. }
  split_and!; [done | done | |].
  - intros Hrun. apply Part000_convert_resolved_inv in Hrun
      as (src & dst & css & hdr & ftr & layout & md & content & po & evs
          & Hrun).
    cbv zeta in Hrun.
    destruct Hrun as (Hsrc & _ & -> & Hhdr & Hftr & _ & _ & _ & Hpo & _ & ->).
    exists src, hdr, ftr, po, evs. eexists. cbv zeta.
    split_and!; try done.
    + unfold rendered. simpl. rewrite <- app_assoc. reflexivity.
    + by destruct (HP _ _ Hpo) as (-> & _ & _).
    + by destruct (HP _ _ Hpo) as (_ & -> & _).
    + by destruct (HP _ _ Hpo) as (_ & _ & ->).
  - intros Hrun. apply Index_convert_resolved_inv in Hrun
      as (src & dst & css & hentry & fentry & layout & md & content & po & evs
          & Hrun).
    cbv zeta in Hrun.
    destruct Hrun as (_ & _ & -> & _ & _ & _ & _ & _ & Hpo & _ & ->).
    destruct (HI _ _ Hpo) as (Hd & Hh & Hf). unfold rendered.
    destruct (debug (default empty_options arg)) as [[|c dbg]|]; simpl.
    + exists po, evs. eexists.
      split; [rewrite <- app_assoc; reflexivity | done].
    + eexists po, (evs ++ [_]), _.
      split; [rewrite <- !app_assoc; reflexivity | done].
    + exists po, evs. eexists.
      split; [rewrite <- app_assoc; reflexivity | done].
Qed.

End Display.

Lemma C1_display_follows_produced_documents_witness :
  let w := Reference.world_of
             [("/work/doc.md", "# Title"); ("/hdr/h.html", "<img src=logo.png>")]
             Reference.no_fault in
  let arg := Some (Reference.request (Some "/hdr/h.html") None) in
  let w' := (Part000.convert arg w).1 in
  ∃ src hdr ftr po before html,
     let o := default empty_options arg in
     let dir := path_dirname (path_resolve [src]) in
     source o = Some src ∧
     produced_header w dir (header o) hdr ∧
     produced_footer w dir (footer o) ftr ∧
     log w' = log w ++ before ++ render_events html "/out/doc.pdf" po ∧
     Puppet.displayHeaderFooter po = truthy hdr || truthy ftr ∧
     Puppet.headerTemplate po = or_else hdr None ∧
     Puppet.footerTemplate po = or_else ftr None.
Proof.
  intros w arg w'.
  apply (proj1 (proj2 (proj2
    (C1_display_follows_produced_documents arg w w' "/out/doc.pdf")))).
  vm_compute. reflexivity.
Defined.


(** C1 as the specification has it fails in [src/index.js]: a request with a
    header, whose fragment is read, qualified and bound into the page,
    resolves with render parameters that do not ask for header/footer
    display and carry no header template. *)
Lemma C1_index_never_displays :
  let w := Reference.world_of
             [("/work/doc.md", "# Title"); ("/hdr/h.html", "<img src=logo.png>")]
             Reference.no_fault in
  let run := Index.convert (Some (Reference.request (Some "/hdr/h.html") None)) w in
  run.2 = Resolved "/out/doc.pdf" ∧
  bound_fragment w "/work" (Some "/hdr/h.html") "header"
    [("header",
      SafeString
        (cheerio_html [Element "img" [("src", "file:///work/logo.png")] []]))] ∧
  Puppet.displayHeaderFooter <$> pdf_requests (log run.1) = [false] ∧
  Puppet.headerTemplate <$> pdf_requests (log run.1) = [None].
Proof.
  intros w run. split_and!.
  - vm_compute. reflexivity.
  - exists "/hdr/h.html", "<img src=logo.png>". split_and!; try done.
    eexists. split; [|done].
    apply (qualified_in_intro (with_assetDir (Some "/work") empty_options));
      [reflexivity |].
    vm_compute. reflexivity.
  - vm_compute. reflexivity.
  - vm_compute. reflexivity.
Qed.

(** ** Failure: no cleanup *)

Lemma C2_failure_skips_cleanup_witness :
  let e := EngineError "navigation failed" in
  let w := Reference.world_of [] (λ s, if decide (s = Goto) then Some e else None) in
  let o := Reference.request None None in
  abandoned (Index.createPdf "<p>page</p>" o w) w "<p>page</p>" "/out/doc.pdf" Goto ∧
  abandoned (Part000.createPdf "<p>page</p>" o w) w "<p>page</p>" "/out/doc.pdf" Goto.
Proof.
  intros e w o.
  apply (C2_failure_skips_cleanup "<p>page</p>" o w "/out/doc.pdf" Goto e).
  - reflexivity.
  - split; [reflexivity |]. intros s' Hlt. destruct s'; simpl in Hlt; (reflexivity || lia).
  - discriminate.
Defined.

(** C2 as the specification has it fails: in a conversion whose navigation
    fails the promise is rejected, closing the browser and deleting the
    temporary file are never attempted, the browser and its page stay open
    and the temporary file stays on disk.  Both modules behave so. *)
Lemma C2_cleanup_not_attempted :
  let e := EngineError "navigation failed" in
  let w := Reference.world_of [("/work/doc.md", "# Title")]
             (λ s, if decide (s = Goto) then Some e else None) in
  let arg := Some (Reference.request None None) in
  let leaked (run : world * outcome) :=
    run.2 = Rejected e ∧
    EvLaunch ∈ log run.1 ∧
    (EvClose ∉ log run.1) ∧
    (EvUnlinkSync "/out/_temp.html" ∉ log run.1) ∧
    live_browsers run.1 = 1 ∧ live_pages run.1 = 1 ∧
    is_Some (files run.1 !! "/out/_temp.html") in
  leaked (Index.convert arg w) ∧ leaked (Part000.convert arg w).
Proof.
  intros e w arg leaked. subst leaked. cbv beta.
  assert (Hdec : ∀ P `{Decision P}, bool_decide P = true → P).
  { intros P ? HP. by apply bool_decide_eq_true in HP. }
  repeat apply conj.
  all: try (vm_compute; reflexivity).
  all: try (apply (Hdec _ _); vm_compute; reflexivity).
  all: vm_compute; by eexists.
Qed.

(** ** One asset directory *)

Section AssetDirectory.
Context `{Host}.

(** C7.  In a conversion the asset directory is the directory of the
    resolved source path, set once before anything is read.  The body, the
    header fragment and the footer fragment all have their images qualified
    against it: what reaches the page and the browser is the markdown output,
    the content of the header file and the content of the footer file, each
    with the [src] of every [img] resolved in that directory
    ([qualified_in]): a [src] without scheme has become the file URL of its
    path resolved there, and no [src] has become anything but itself or that
    file URL.  The resolver reads nothing of the request but this directory,
    so the place of the header or footer file plays no part.  Both modules
    behave so. *)
Theorem C7_single_asset_directory (arg : option options) (w w' : world)
    (v : string) :
  let o := default empty_options arg in
  (Part000.convert arg w = (w', Resolved v) →
   ∃ src md body hdr ftr layout css before po,
     let dir := path_dirname (path_resolve [src]) in
     source o = Some src ∧ files w !! src = Some md ∧
     qualified_in dir (parseMarkdownToHtml md (negb (noEmoji o))) body ∧
     produced_header w dir (header o) hdr ∧
     produced_footer w dir (footer o) ftr ∧
     log w' = log w ++ before ++
              render_events
                (Handlebars_compile layout
                   [("highlightJs", Plain highlightJs);
                    ("css", SafeString css);
                    ("body", SafeString body)]) v po ∧
     Puppet.headerTemplate po = or_else hdr None ∧
     Puppet.footerTemplate po = or_else ftr None) ∧
  (Index.convert arg w = (w', Resolved v) →
   ∃ src md body hentry fentry layout css before po,
     let dir := path_dirname (path_resolve [src]) in
     source o = Some src ∧ files w !! src = Some md ∧
     qualified_in dir (parseMarkdownToHtml md (negb (noEmoji o))) body ∧
     bound_fragment w dir (header o) "header" hentry ∧
     bound_fragment w dir (footer o) "footer" fentry ∧
     log w' = log w ++ before ++
              render_events
                (Handlebars_compile layout
                   ([("highlightJs", Plain highlightJs);
                     ("css", SafeString css)] ++
                    hentry ++ fentry ++ [("body", SafeString body)])) v po) ∧
  (∀ html o1 o2, assetDir o1 = assetDir o2 →
     qualifyImgSources html o1 = qualifyImgSources html o2) ∧
  (∀ dir src, truthy (url_parse_protocol src) = false →
     processSrc (Some src) (with_assetDir (Some dir) empty_options)
       = Ok (fileUrl (path_resolve [dir; src]))).
Proof.
  intros o. split_and!.
  - intros Hrun. apply Part000_convert_resolved_inv in Hrun
      as (src & dst & css & hdr & ftr & layout & md & content & po & evs
          & Hrun).
    cbv zeta in Hrun. fold o in Hrun.
    destruct Hrun
      as (Hsrc & _ & -> & Hhdr & Hftr & _ & Hmd & Hbody & Hpo & _ & ->).
    exists src, md, content, hdr, ftr, layout, css, evs, po. cbv zeta.
    split_and!; try done.
    + unfold rendered. simpl. rewrite <- app_assoc. reflexivity.
    + unfold Part000.puppetOptions in Hpo. simpl in Hpo.
      destruct (pdf o) as [p|]; [|done]. destruct (Pdf.border p); [|done].
      by injection Hpo as <-.
    + unfold Part000.puppetOptions in Hpo. simpl in Hpo.
      destruct (pdf o) as [p|]; [|done]. destruct (Pdf.border p); [|done].
      by injection Hpo as <-.
  - intros Hrun. apply Index_convert_resolved_inv in Hrun
      as (src & dst & css & hentry & fentry & layout & md & content & po & evs
          & Hrun).
    cbv zeta in Hrun. fold o in Hrun.
    destruct Hrun
      as (Hsrc & _ & -> & Hhdr & Hftr & _ & Hmd & Hbody & Hpo & _ & ->).
    unfold rendered.
    destruct (debug o) as [[|c dbg]|]; simpl;
      exists src, md, content, hentry, fentry, layout, css.
    + exists evs, po. cbv zeta. split_and!; try done.
      rewrite <- app_assoc. reflexivity.
    + eexists (evs ++ [_]), po. cbv zeta. split_and!; try done.
      rewrite <- !app_assoc. reflexivity.
    + exists evs, po. cbv zeta. split_and!; try done.
      rewrite <- app_assoc. reflexivity.
  - intros html o1 o2. apply qualifyImgSources_assetDir.
  - intros dir src Hrel. by rewrite processSrc_string, Hrel.
Qed.

(** The emoji extension is handed to the converter exactly when [noEmoji]
    is not set; the converter is otherwise configured the same. *)
Lemma parseMarkdownToHtml_noEmoji (markdown : string) (o : options) :
  parseMarkdownToHtml markdown (negb (noEmoji o)) =
  makeHtml {| flavor := "github";
              prefixHeaderId := false;
              ghCompatibleHeaderId := true;
              extensions := if noEmoji o then [] else [showdownEmoji] |}
           markdown.
Proof. unfold parseMarkdownToHtml. by destruct (noEmoji o). Qed.

End AssetDirectory.

Lemma C7_single_asset_directory_witness :
  let w := Reference.world_of
             [("/work/doc.md", "<img src=fig.png>");
              ("/hdr/h.html", "<img src=logo.png>")]
             Reference.no_fault in
  let arg := Some (Reference.request (Some "/hdr/h.html") None) in
  let o := default empty_options arg in
  let w' := (Part000.convert arg w).1 in
  ∃ src md body hdr ftr layout css before po,
     let dir := path_dirname (path_resolve [src]) in
     source o = Some src ∧ files w !! src = Some md ∧
     qualified_in dir (parseMarkdownToHtml md (negb (noEmoji o))) body ∧
     produced_header w dir (header o) hdr ∧
     produced_footer w dir (footer o) ftr ∧
     log w' = log w ++ before ++
              render_events
                (Handlebars_compile layout
                   [("highlightJs", Plain highlightJs);
                    ("css", SafeString css);
                    ("body", SafeString body)]) "/out/doc.pdf" po ∧
     Puppet.headerTemplate po = or_else hdr None ∧
     Puppet.footerTemplate po = or_else ftr None.
Proof.
  intros w arg o w'.
  apply (proj1 (C7_single_asset_directory arg w w' "/out/doc.pdf")).
  vm_compute. reflexivity.
Defined.

(** The header of that request lives in [/hdr], the source in [/work]: the
    image of the header is looked up in [/work]. *)
Example header_image_in_source_directory :
  let w := Reference.world_of
             [("/work/doc.md", "<img src=fig.png>");
              ("/hdr/h.html", "<img src=logo.png>")]
             Reference.no_fault in
  let run := Part000.convert (Some (Reference.request (Some "/hdr/h.html") None)) w in
  Puppet.headerTemplate <$> pdf_requests (log run.1) =
  [Some ("[header]" +:+
         cheerio_html [Element "img" [("src", "file:///work/logo.png")] []])].
Proof. vm_compute. reflexivity. Qed.

(** * Further properties of the code *)

(** ** The resolver, one [src] at a time *)

Section ResolverMore.
Context `{Host}.

(** X1.  Only [http:] and [https:] keep a [src] as it is: whenever the
    resolver returns for a [src] in which neither occurs, what it returns is
    the file URL of the [src] resolved against the asset directory, whether
    or not the [src] has a scheme of its own (a [data:] or [file:] URL is
    not passed through). *)
Theorem processSrc_other_schemes_resolved (src out : string) (o : options) :
  (¬ ∃ a b, src = a +:+ "http:" +:+ b) →
  (¬ ∃ a b, src = a +:+ "https:" +:+ b) →
  processSrc (Some src) o = Ok out →
  ∃ dir, assetDir o = Some dir ∧ out = fileUrl (path_resolve [dir; src]).
Proof.
  intros Hhttp Hhttps. rewrite processSrc_string.
  rewrite <- includes_spec in Hhttp, Hhttps.
  apply not_true_is_false in Hhttp, Hhttps.
  rewrite Hhttp, Hhttps, andb_false_r.
  destruct (assetDir o) as [dir|]; [|done].
  intros [= <-]. by exists dir.
Qed.

Lemma each_img_srcs (o : options) (n n' : node) :
  each_img o n = Ok n' →
  Forall2 (λ old new, ∃ s, new = Some s ∧ processSrc old o = Ok s)
          (img_srcs n) (img_srcs n').
Proof.
  revert n'.
  induction n as [name attribs children IH| | |] using node_forall_ind;
    try (intros n' [= <-]; constructor).
  intros n'. rewrite each_img_element.
  assert (Hkids : ∀ cs', each_imgs o children = Ok cs' →
    Forall2 (λ old new, ∃ s, new = Some s ∧ processSrc old o = Ok s)
            (flat_map img_srcs children) (flat_map img_srcs cs')).
  { induction IH as [|c cs Hc _ IHcs]; simpl.
    - intros cs' [= <-]. constructor.
    - intros cs'. destruct (each_img o c) as [c'|e]; simpl; [|done].
      destruct (each_imgs o cs) as [cs''|e]; simpl; [|done].
      intros [= <-]. simpl. apply Forall2_app; [by apply Hc | by apply IHcs]. }
  destruct (String.eqb name "img") eqn:Himg.
  - destruct (processSrc (get_attr "src" attribs) o) as [s|e] eqn:Hs;
      simpl; [|done].
    destruct (each_imgs o children) as [cs'|e]; simpl; [|done].
    intros [= <-]. simpl. rewrite Himg. simpl. constructor.
    + exists s. by rewrite get_attr_set_attr.
    + by apply Hkids.
  - simpl. destruct (each_imgs o children) as [cs'|e]; simpl; [|done].
    intros [= <-]. simpl. rewrite Himg. simpl. by apply Hkids.
Qed.

(** X2.  When the traversal of a document succeeds, every [img] of the
    result, in document order, carries as [src] what [processSrc] returns for
    the [src] of the corresponding [img] of the input. *)
Theorem each_imgs_processes_every_src (o : options) (d d' : dom) :
  each_imgs o d = Ok d' →
  Forall2 (λ old new, ∃ s, new = Some s ∧ processSrc old o = Ok s)
          (flat_map img_srcs d) (flat_map img_srcs d').
Proof.
  revert d'. induction d as [|c cs IH]; simpl.
  - intros d' [= <-]. constructor.
  - intros d'. destruct (each_img o c) as [c'|e] eqn:Hc; simpl; [|done].
    destruct (each_imgs o cs) as [cs'|e]; simpl; [|done].
    intros [= <-]. simpl.
    apply Forall2_app; [by apply each_img_srcs | by apply IH].
Qed.

End ResolverMore.

Lemma processSrc_other_schemes_resolved_witness :
  let o := with_assetDir (Some "/docs") empty_options in
  ∃ dir, assetDir o = Some dir ∧
         "file:///docs/data:image/png;base64,AAAA" =
         fileUrl (path_resolve [dir; "data:image/png;base64,AAAA"]).
Proof.
  intros o.
  apply (processSrc_other_schemes_resolved "data:image/png;base64,AAAA" _ o).
  - rewrite <- includes_spec. vm_compute. discriminate.
  - rewrite <- includes_spec. vm_compute. discriminate.
  - vm_compute. reflexivity.
Defined.

Lemma each_imgs_processes_every_src_witness :
  let o := with_assetDir (Some "/docs") empty_options in
  let d := [Element "p" [] [Text "x"; Element "img" [("alt", "a"); ("src", "./a.png")] []];
            Element "img" [("src", "https://example.com/b.png")] []] in
  let d' := [Element "p" [] [Text "x"; Element "img" [("alt", "a"); ("src", "file:///docs/a.png")] []];
             Element "img" [("src", "https://example.com/b.png")] []] in
  Forall2 (λ old new, ∃ s, new = Some s ∧ processSrc old o = Ok s)
          (flat_map img_srcs d) (flat_map img_srcs d').
Proof.
  intros o d d'. apply (each_imgs_processes_every_src o d d').
  vm_compute. reflexivity.
Defined.

(** ** The style composer on a missing file *)

Section StylesMore.
Context `{Host}.

Lemma getCssAsHtml_loop_first_missing (pre : list string) :
  ∀ (contents : list string) (q : string) (post : list string)
    (styleHtml : string) (w : world),
  Forall2 (λ p c, files w !! p = Some c) pre contents →
  files w !! q = None →
  getCssAsHtml_loop styleHtml (pre ++ q :: post) w =
  (logged (EvReadFileSync <$> (pre ++ [q])) w, Throw (ENOENT "open" q)).
Proof.
  induction pre as [|p pre IH]; intros contents q post styleHtml w Hall Hq.
  - simpl getCssAsHtml_loop. unfold readFileSync.
    by rewrite (bind_throw _ _ _ _ _ (read_missing _ _ _ _ Hq)).
  - apply Forall2_cons_inv_l in Hall as (c & contents' & Hp & Hall & ->).
    simpl getCssAsHtml_loop. unfold readFileSync.
    rewrite (bind_ok _ _ _ _ _ (read_ok _ _ _ _ _ Hp)).
    rewrite (IH contents'); [|done|done]. by rewrite logged_record.
Qed.

(** X3.  A selected stylesheet that does not exist makes [convert] throw
    from the call itself (no promise is returned): the error is the I/O error
    for the first missing sheet in the order of selection, the sheets before
    it have been read, and nothing else has happened.  Both modules behave
    so. *)
Theorem convert_missing_stylesheet_throws (arg : option options) (w : world)
    (pre : list string) (q : string) (post contents : list string) :
  let o := default empty_options arg in
  truthy (source o) = true → truthy (destination o) = true →
  selected_sheets o = pre ++ q :: post →
  Forall2 (λ p c, files w !! p = Some c) pre contents →
  files w !! q = None →
  let out := (logged (EvReadFileSync <$> (pre ++ [q])) w,
              Thrown (ENOENT "open" q)) in
  Index.convert arg w = out ∧ Part000.convert arg w = out.
Proof.
  intros o Hsrc Hdst Hsel Hpre Hq out. subst out.
  unfold Index.convert, Part000.convert. fold o.
  destruct (source o) as [[|c0 src]|]; try done.
  destruct (destination o) as [[|c1 dst]|]; try done. simpl.
  rewrite !getAllStyles_sheets.
  change (selected_sheets (with_assetDir _ o)) with (selected_sheets o).
  rewrite Hsel. unfold getCssAsHtml.
  by rewrite (getCssAsHtml_loop_first_missing pre contents).
Qed.

End StylesMore.

Lemma convert_missing_stylesheet_throws_witness :
  let w := Reference.world_of [("/work/doc.md", "# Title")] Reference.no_fault in
  let arg := Some {| source := Some "/work/doc.md";
                     destination := Some "/out/doc.pdf";
                     header := None; footer := None;
                     styles := Some "/work/missing.css"; debug := None;
                     ghStyle := true; defaultStyle := false; noEmoji := false;
                     pdf := None; assetDir := None |} in
  let out :=
    (logged [EvReadFileSync "/pkg/assets/github-markdown-css.css";
             EvReadFileSync "/pkg/assets/highlight/styles/github.css";
             EvReadFileSync "/work/missing.css"] w,
     Thrown (ENOENT "open" "/work/missing.css")) in
  Index.convert arg w = out ∧ Part000.convert arg w = out.
Proof.
  intros w arg out.
  refine (convert_missing_stylesheet_throws arg w
            ["/pkg/assets/github-markdown-css.css";
             "/pkg/assets/highlight/styles/github.css"]
            "/work/missing.css" [] ["gh{}"; "hl{}"] _ _ _ _ _);
    try reflexivity.
  repeat constructor.
Defined.

(** ** The render orchestrator: other failures *)

Section RenderMore.
Context `{Host}.

(** X4.  When only [browser.close] fails, the promise is rejected with its
    error although the PDF is already at the destination; the chain ends
    there, so the temporary file is not deleted.  Both modules behave so. *)
Theorem createPdf_close_failure (html : string) (o : options) (w : world)
    (dst : string) (e : error) :
  destination o = Some dst → first_fault w Close e →
  (∀ po, Index.puppetOptions o = Ok po →
     close_failed (Index.createPdf html o w) w html dst po e) ∧
  (∀ po, Part000.puppetOptions o = Ok po →
     close_failed (Part000.createPdf html o w) w html dst po e).
Proof.
  intros Hdst Hff.
  assert (Hok : ∀ s, s ≠ Close → fault w s = None).
  { intros s Hs. apply (first_fault_before _ Close _ e Hff).
    destruct s; simpl; (lia || done). }
  pose proof (Hok Launch ltac:(done)) as HL.
  pose proof (Hok NewPage ltac:(done)) as HN.
  pose proof (Hok Goto ltac:(done)) as HG.
  pose proof (Hok Pdf ltac:(done)) as HP.
  pose proof (proj1 Hff) as Hhere.
  split; intros po Hpo.
  - pose proof (Index_puppetOptions_path _ _ Hpo) as Hpath.
    unfold Index.createPdf. rewrite Hdst.
    unfold writeFile, puppeteer_launch, browser_newPage, page_goto, page_pdf,
      browser_close, unlinkSync, engine, lift.
    repeat (rewrite ?bind_unfold; simpl;
            rewrite ?HL, ?HN, ?HG, ?HP, ?Hhere, ?Hpo).
    rewrite Hpath, Hdst, lookup_insert_eq.
    repeat (rewrite ?bind_unfold; simpl; rewrite ?Hhere).
    eexists; split_and!;
      [ reflexivity | simpl; apply lookup_insert_eq
      | simpl; apply temp_file_present
      | simpl; by rewrite <- !app_assoc ].
  - pose proof (Part000_puppetOptions_path _ _ Hpo) as Hpath.
    unfold Part000.createPdf. rewrite Hdst.
    unfold writeFile, puppeteer_launch, browser_newPage, page_goto, page_pdf,
      browser_close, unlinkSync, engine, lift.
    repeat (rewrite ?bind_unfold; simpl;
            rewrite ?HL, ?HN, ?HG, ?HP, ?Hhere, ?Hpo).
    rewrite Hpath, Hdst, lookup_insert_eq.
    repeat (rewrite ?bind_unfold; simpl; rewrite ?Hhere).
    eexists; split_and!;
      [ reflexivity | simpl; apply lookup_insert_eq
      | simpl; apply temp_file_present
      | simpl; by rewrite <- !app_assoc ].
Qed.

(** The operation is none of those listed. *)
Ltac absent :=
  intros; rewrite ?not_elem_of_cons; split_and?; try done;
  apply not_elem_of_nil.

(** X5.  A render for a request without [options.pdf], or without
    [options.pdf.border], never resolves, and never gets to [page.pdf], to
    [browser.close] or to deleting the temporary file.  Once the page has
    been navigated to, it is rejected with the [TypeError] of building the
    render parameters: exactly the write of the temporary file, the launch,
    the new page and the navigation have happened, the temporary file is
    there, and the browser and its page are left open.  Both modules behave
    so. *)
Theorem createPdf_missing_layout_fails (html : string) (o : options)
    (w w' : world) (dst : string) (r : result string) :
  destination o = Some dst →
  pdf o = None ∨ (∃ p, pdf o = Some p ∧ Pdf.border p = None) →
  Index.createPdf html o w = (w', r) ∨ Part000.createPdf html o w = (w', r) →
  let temp := tempHtmlPath dst in
  let navigation := EvGoto ("file:" +:+ temp) "networkidle2" in
  ∃ e evs,
    r = Throw e ∧ log w' = log w ++ evs ∧
    (∀ po, EvPdf po ∉ evs) ∧ (EvClose ∉ evs) ∧ (EvUnlinkSync temp ∉ evs) ∧
    (navigation ∈ evs → fault w Goto = None →
     (∃ msg, e = TypeError msg) ∧
     evs = [EvWriteFile temp html; EvLaunch; EvNewPage; navigation] ∧
     files w' !! temp = Some html ∧
     live_browsers w' = S (live_browsers w) ∧
     live_pages w' = S (live_pages w)).
Proof.
  intros Hdst Hmissing Hrun temp navigation.
  assert (Hpo : ∃ m1 m2, Index.puppetOptions o = Throw (TypeError m1) ∧
                         Part000.puppetOptions o = Throw (TypeError m2)).
  { unfold Index.puppetOptions, Part000.puppetOptions.
    destruct Hmissing as [-> | (p & -> & ->)]; by eexists _, _. }
  destruct Hpo as (m1 & m2 & Hpo1 & Hpo2).
  assert (Hchain :
    (_ ← writeFile temp html;
     _ ← puppeteer_launch;
     _ ← browser_newPage;
     _ ← page_goto temp "networkidle2";
     (lift (Throw (TypeError m1)) : io Puppet.options) ≫= λ _, mret dst) w
      = (w', r) ∨
    (_ ← writeFile temp html;
     _ ← puppeteer_launch;
     _ ← browser_newPage;
     _ ← page_goto temp "networkidle2";
     (lift (Throw (TypeError m2)) : io Puppet.options) ≫= λ _, mret dst) w
      = (w', r)).
  { destruct Hrun as [Hrun | Hrun]; [left | right]; rewrite <- Hrun.
    - unfold Index.createPdf. rewrite Hdst, Hpo1. fold temp.
      unfold lift. by rewrite !bind_unfold.
    - unfold Part000.createPdf. rewrite Hdst, Hpo2. fold temp.
      unfold lift. by rewrite !bind_unfold. }
  clear Hrun Hpo1 Hpo2 Hmissing.
  assert (∃ m,
    (_ ← writeFile temp html;
     _ ← puppeteer_launch;
     _ ← browser_newPage;
     _ ← page_goto temp "networkidle2";
     (lift (Throw (TypeError m)) : io Puppet.options) ≫= λ _, mret dst) w
      = (w', r)) as [m Hrun].
  { destruct Hchain as [Hrun | Hrun]; by eexists. }
  clear Hchain. revert Hrun.
  unfold writeFile, puppeteer_launch, browser_newPage, page_goto, engine, lift.
  destruct (fault w Launch) as [eL|] eqn:HL;
    [|destruct (fault w NewPage) as [eN|] eqn:HN;
      [|destruct (fault w Goto) as [eG|] eqn:HG]];
    repeat (rewrite ?bind_unfold; simpl; rewrite ?HL, ?HN, ?HG);
    intros [= <- <-]; simpl.
  - exists eL, [EvWriteFile temp html; EvLaunch].
    split_and!; [done | by rewrite <- app_assoc | absent.. | ].
    intros Hin. by do 2 (apply elem_of_cons in Hin as [? | Hin]; [done |]);
      apply elem_of_nil in Hin.
  - exists eN, [EvWriteFile temp html; EvLaunch; EvNewPage].
    split_and!; [done | by rewrite <- !app_assoc | absent.. | ].
    intros Hin. by do 3 (apply elem_of_cons in Hin as [? | Hin]; [done |]);
      apply elem_of_nil in Hin.
  - exists eG, [EvWriteFile temp html; EvLaunch; EvNewPage; navigation].
    split_and!; [done | by rewrite <- !app_assoc | absent.. | ].
    intros _ [=].
  - exists (TypeError m), [EvWriteFile temp html; EvLaunch; EvNewPage; navigation].
    split_and!; [done | by rewrite <- !app_assoc | absent.. | ].
    intros _ _. split_and!; [by eexists | done | apply lookup_insert_eq | done..].
Qed.

End RenderMore.

(** ** What a run may touch *)

Lemma touches_only_refl (paths : list string) (w : world) :
  touches_only paths w w.
Proof. by intros p _. Qed.

Lemma touches_only_trans (paths : list string) (w1 w2 w3 : world) :
  touches_only paths w1 w2 → touches_only paths w2 w3 →
  touches_only paths w1 w3.
Proof. intros H12 H23 p Hp. by rewrite H23, H12. Qed.

Lemma touches_only_mono (paths paths' : list string) (w w' : world) :
  paths ⊆ paths' → touches_only paths w w' → touches_only paths' w w'.
Proof. intros Hsub Hw p Hp. apply Hw. intros Hin. by apply Hp, Hsub. Qed.

Lemma frames_mono {A} (paths paths' : list string) (m : io A) :
  paths ⊆ paths' → frames paths m → frames paths' m.
Proof.
  intros Hsub Hm w w' r Hrun.
  by apply (touches_only_mono paths paths'), (Hm w w' r).
Qed.

Lemma frames_ret {A} (paths : list string) (a : A) : frames paths (mret a).
Proof. intros w w' r [= <- <-]. apply touches_only_refl. Qed.

Lemma frames_throw {A} (paths : list string) (e : error) :
  frames paths (throw e : io A).
Proof. intros w w' r [= <- <-]. apply touches_only_refl. Qed.

Lemma frames_bind {A B} (paths : list string) (m : io A) (k : A → io B) :
  frames paths m → (∀ a, frames paths (k a)) → frames paths (m ≫= k).
Proof.
  intros Hm Hk w w' r. rewrite bind_unfold.
  destruct (m w) as [w1 [a|e]] eqn:Hrun.
  - intros Hrest. eapply touches_only_trans; [by eapply Hm | by eapply Hk].
  - intros [= <- <-]. by eapply Hm.
Qed.

(** After a synchronous step, only the continuation for its value counts. *)
Lemma frames_lift_bind {A B} (paths : list string) (r : result A)
    (k : A → io B) :
  (∀ a, r = Ok a → frames paths (k a)) → frames paths (lift r ≫= k).
Proof.
  intros Hk w w' r'. rewrite bind_unfold. unfold lift.
  destruct r as [a|e]; [by apply Hk | intros [= <- <-]; apply touches_only_refl].
Qed.

Lemma reads_only_frames {A} (paths : list string) (m : io A) :
  reads_only m → frames paths m.
Proof.
  intros Hm w w' r Hrun. destruct (Hm w w' r Hrun) as (evs & -> & _).
  by intros p _.
Qed.

Lemma reads_only_ret {A} (a : A) : reads_only (mret a).
Proof. intros w w' r [= <- <-]. exists []. by rewrite logged_nil. Qed.

Lemma reads_only_lift {A} (r : result A) : reads_only (lift r).
Proof. intros w w' r' [= <- <-]. exists []. by rewrite logged_nil. Qed.

Lemma reads_only_readFile (p : string) : reads_only (readFile p).
Proof.
  intros w w' r. unfold readFile, read. simpl.
  destruct (files w !! p); intros [= <- <-]; by exists [EvReadFile p].
Qed.

Lemma reads_only_bind {A B} (m : io A) (k : A → io B) :
  reads_only m → (∀ a, reads_only (k a)) → reads_only (m ≫= k).
Proof.
  intros Hm Hk w w' r. rewrite bind_unfold.
  destruct (m w) as [w1 [a|e]] eqn:Hrun.
  - intros Hrest. destruct (Hm _ _ _ Hrun) as (evs1 & -> & Hr1).
    destruct (Hk _ _ _ _ Hrest) as (evs2 & -> & Hr2).
    exists (evs1 ++ evs2). rewrite logged_logged. split; [done |].
    by rewrite forallb_app, Hr1, Hr2.
  - intros [= <- <-]. by eapply Hm.
Qed.

Lemma reads_only_getCssAsHtml_loop (sheets : list string) (styleHtml : string) :
  reads_only (getCssAsHtml_loop styleHtml sheets).
Proof.
  revert styleHtml. induction sheets as [|p sheets IH]; intros styleHtml.
  - apply reads_only_ret.
  - simpl. apply reads_only_bind; [|intros style; apply IH].
    intros w w' r. unfold readFileSync, read. simpl.
    destruct (files w !! p); intros [= <- <-]; by exists [EvReadFileSync p].
Qed.

Section Frames.
Context `{Host}.

Lemma reads_only_getAllStyles (o : options) : reads_only (getAllStyles o).
Proof. rewrite getAllStyles_sheets. apply reads_only_getCssAsHtml_loop. Qed.

Lemma reads_only_prepareHeader (o : options) :
  reads_only (Part000.prepareHeader o).
Proof.
  unfold Part000.prepareHeader.
  destruct (header o) as [[|c p]|]; simpl; try apply reads_only_ret.
  apply reads_only_bind; [apply reads_only_readFile | intros layout].
  apply reads_only_bind; [apply reads_only_readFile | intros content].
  apply reads_only_bind; [apply reads_only_lift | intros prepared].
  apply reads_only_ret.
Qed.

Lemma reads_only_prepareFooter (o : options) :
  reads_only (Part000.prepareFooter o).
Proof.
  unfold Part000.prepareFooter.
  destruct (footer o) as [[|c p]|]; simpl; try apply reads_only_ret.
  apply reads_only_bind; [apply reads_only_readFile | intros content].
  apply reads_only_bind; [apply reads_only_lift | intros prepared].
  apply reads_only_ret.
Qed.

Lemma reads_only_read_fragment (p : value) :
  reads_only (if_truthy p
                (λ file, content ← readFile file; mret (Some content))
                (mret None)).
Proof.
  destruct p as [[|c file]|]; simpl; try apply reads_only_ret.
  apply reads_only_bind; [apply reads_only_readFile | intros content].
  apply reads_only_ret.
Qed.

Lemma frames_engine (paths : list string) (s : stage) (ev : event)
    (effect : world → world) :
  (∀ w, touches_only paths w (effect w)) → frames paths (engine s ev effect).
Proof.
  intros Heff w w' r. unfold engine. simpl.
  destruct (fault w s); intros [= <- <-]; [by intros p _ |].
  intros p Hp. by rewrite (Heff (record ev w) p Hp).
Qed.

Lemma frames_writeFile (paths : list string) (p data : string) :
  p ∈ paths → frames paths (writeFile p data).
Proof.
  intros Hin w w' r [= <- <-] q Hq. simpl.
  apply lookup_insert_ne. by intros ->.
Qed.

Lemma frames_writeFileSync (paths : list string) (p data : string) :
  p ∈ paths → frames paths (writeFileSync p data).
Proof.
  intros Hin w w' r [= <- <-] q Hq. simpl.
  apply lookup_insert_ne. by intros ->.
Qed.

Lemma frames_unlinkSync (paths : list string) (p : string) :
  p ∈ paths → frames paths (unlinkSync p).
Proof.
  intros Hin w w' r. unfold unlinkSync. simpl.
  destruct (files w !! p); intros [= <- <-] q Hq; simpl; [|done].
  apply lookup_delete_ne. by intros ->.
Qed.

Lemma frames_page_pdf (paths : list string) (po : Puppet.options) (dst : string) :
  Puppet.path po = Some dst → dst ∈ paths → frames paths (page_pdf po).
Proof.
  intros Hpath Hin. apply frames_engine. intros w q Hq. rewrite Hpath. simpl.
  apply lookup_insert_ne. by intros ->.
Qed.

Lemma frames_render (paths : list string) (html dst : string)
    (puppetOptions : result Puppet.options) :
  tempHtmlPath dst ∈ paths → dst ∈ paths →
  (∀ po, puppetOptions = Ok po → Puppet.path po = Some dst) →
  frames paths
    (_ ← writeFile (tempHtmlPath dst) html;
     _ ← puppeteer_launch;
     _ ← browser_newPage;
     _ ← page_goto (tempHtmlPath dst) "networkidle2";
     po ← lift puppetOptions;
     _ ← page_pdf po;
     _ ← browser_close;
     _ ← unlinkSync (tempHtmlPath dst);
     mret dst).
Proof.
  intros Htemp Hdst Hpath.
  apply frames_bind; [by apply frames_writeFile | intros _].
  apply frames_bind; [apply frames_engine; by intros w q _ | intros _].
  apply frames_bind; [apply frames_engine; by intros w q _ | intros _].
  apply frames_bind; [apply frames_engine; by intros w q _ | intros _].
  apply frames_lift_bind. intros po Hpo.
  apply frames_bind;
    [apply (frames_page_pdf _ _ dst); [by apply Hpath | done] | intros _].
  apply frames_bind; [apply frames_engine; by intros w q _ | intros _].
  apply frames_bind; [by apply frames_unlinkSync | intros _].
  apply frames_ret.
Qed.

Lemma frames_Index_createPdf (html dst : string) (o : options) :
  destination o = Some dst →
  frames [tempHtmlPath dst; dst] (Index.createPdf html o).
Proof.
  intros Hdst. unfold Index.createPdf. rewrite Hdst.
  apply frames_render; [set_solver | set_solver |].
  intros po Hpo. by rewrite (Index_puppetOptions_path _ _ Hpo).
Qed.

Lemma frames_Part000_createPdf (html dst : string) (o : options) :
  destination o = Some dst →
  frames [tempHtmlPath dst; dst] (Part000.createPdf html o).
Proof.
  intros Hdst. unfold Part000.createPdf. rewrite Hdst.
  apply frames_render; [set_solver | set_solver |].
  intros po Hpo. by rewrite (Part000_puppetOptions_path _ _ Hpo).
Qed.

End Frames.

(** ** The whole conversion: files it leaves alone *)

Section ConvertFrames.
Context `{Host}.

Lemma frames_Part000_chain (o : options) (src dst : string) (local : hb_context) :
  destination o = Some dst →
  frames [tempHtmlPath dst; dst]
    (header ← Part000.prepareHeader o;
     let options := with_header header o in
     footer ← Part000.prepareFooter options;
     let options := with_footer footer options in
     layout ← readFile Part000.layoutPath;
     let template := Handlebars_compile layout in
     mdDoc ← readFile src;
     content ← lift (
       qualifyImgSources
         (parseMarkdownToHtml mdDoc (negb (noEmoji options))) options);
     let local := push local ("body", SafeString content) in
     let html := template local in
     Part000.createPdf html options).
Proof.
  intros Hdst.
  apply frames_bind;
    [apply reads_only_frames, reads_only_prepareHeader | intros hdr].
  apply frames_bind;
    [apply reads_only_frames, reads_only_prepareFooter | intros ftr].
  apply frames_bind;
    [apply reads_only_frames, reads_only_readFile | intros layout].
  apply frames_bind;
    [apply reads_only_frames, reads_only_readFile | intros md].
  apply frames_bind;
    [apply reads_only_frames, reads_only_lift | intros content].
  by apply frames_Part000_createPdf.
Qed.

Lemma frames_Index_chain (o : options) (src dst : string) (local : hb_context) :
  destination o = Some dst →
  frames ([tempHtmlPath dst; dst] ++
          match debug o with Some p => [p] | None => [] end)
    (layout ← readFile Index.layoutPath;
     let template := Handlebars_compile layout in
     headerContent ←
       if_truthy (header o)
         (λ p, content ← readFile p; mret (Some content)) (mret None);
     local ← lift (
       if_truthy headerContent
         (λ content,
            preparedHeader ← qualifyImgSources content o;
            mret (push local ("header", SafeString preparedHeader)))
         (mret local));
     footerContent ←
       if_truthy (footer o)
         (λ p, content ← readFile p; mret (Some content)) (mret None);
     local ← lift (
       if_truthy footerContent
         (λ content,
            preparedFooter ← qualifyImgSources content o;
            mret (push local ("footer", SafeString preparedFooter)))
         (mret local));
     md ← readFile src;
     content ← lift (
       qualifyImgSources
         (parseMarkdownToHtml md (negb (noEmoji o))) o);
     let local := push local ("body", SafeString content) in
     let html := template local in
     _ ← if_truthy (debug o) (λ p, writeFileSync p html) (mret ());
     Index.createPdf html o).
Proof.
  intros Hdst.
  apply frames_bind;
    [apply reads_only_frames, reads_only_readFile | intros layout].
  apply frames_bind;
    [apply reads_only_frames, reads_only_read_fragment | intros hgot].
  apply frames_bind;
    [apply reads_only_frames, reads_only_lift | intros local1].
  apply frames_bind;
    [apply reads_only_frames, reads_only_read_fragment | intros fgot].
  apply frames_bind;
    [apply reads_only_frames, reads_only_lift | intros local2].
  apply frames_bind;
    [apply reads_only_frames, reads_only_readFile | intros md].
  apply frames_bind;
    [apply reads_only_frames, reads_only_lift | intros content].
  apply frames_bind; [|intros _].
  - destruct (debug o) as [[|c p]|]; simpl; try apply frames_ret.
    apply frames_writeFileSync. set_solver.
  - eapply frames_mono; [|by apply frames_Index_createPdf]. set_solver.
Qed.

(** X6.  Whatever its outcome, a conversion changes no file other than the
    temporary file and the destination, and in [src/index.js] the debug
    file; the sibling module never writes the debug file. *)
Theorem convert_touches_only (arg : option options) (w w' : world)
    (out : outcome) :
  let o := default empty_options arg in
  let render_paths :=
    match destination o with
    | Some dst => [tempHtmlPath dst; dst]
    | None => []
    end in
  (Part000.convert arg w = (w', out) → touches_only render_paths w w') ∧
  (Index.convert arg w = (w', out) →
   touches_only
     (render_paths ++ match debug o with Some p => [p] | None => [] end) w w').
Proof.
  intros o render_paths. subst render_paths. split.
  - unfold Part000.convert. fold o.
    destruct (source o) as [[|c0 src]|]; simpl;
      try (intros [= <- <-]; apply touches_only_refl).
    destruct (destination o) as [[|c1 dst]|] eqn:Hdst; simpl;
      try (intros [= <- <-]; apply touches_only_refl).
    match goal with
    | |- context [getAllStyles ?o1 w] =>
        destruct (getAllStyles o1 w) as [w1 [css|e]] eqn:Hcss;
        apply reads_only_getAllStyles in Hcss as (evs0 & -> & _)
    end; [|intros [= <- <-]; by intros p _].
    unfold settle.
    match goal with
    | |- (let (_, _) := ?chain ?w0 in _) = _ → _ =>
        destruct (chain w0) as [w2 r] eqn:Hrun
    end.
    pose proof (λ Hd, frames_Part000_chain _ _ (String c1 dst) _ Hd _ _ _ Hrun)
      as Hfr. specialize (Hfr Hdst).
    destruct r; intros [= <- <-]; exact Hfr.
  - unfold Index.convert. fold o.
    destruct (source o) as [[|c0 src]|]; simpl;
      try (intros [= <- <-]; apply touches_only_refl).
    destruct (destination o) as [[|c1 dst]|] eqn:Hdst; simpl;
      try (intros [= <- <-]; apply touches_only_refl).
    match goal with
    | |- context [getAllStyles ?o1 w] =>
        destruct (getAllStyles o1 w) as [w1 [css|e]] eqn:Hcss;
        apply reads_only_getAllStyles in Hcss as (evs0 & -> & _)
    end; [|intros [= <- <-]; by intros p _].
    unfold settle.
    match goal with
    | |- (let (_, _) := ?chain ?w0 in _) = _ → _ =>
        destruct (chain w0) as [w2 r] eqn:Hrun
    end.
    pose proof (λ Hd, frames_Index_chain _ _ (String c1 dst) _ Hd _ _ _ Hrun)
      as Hfr. specialize (Hfr Hdst).
    destruct r; intros [= <- <-]; exact Hfr.
Qed.

End ConvertFrames.

(** ** The whole conversion: what a success leaves behind *)

Section SuccessMore.
Context `{Host}.

(** X7.  A destination that is itself the temporary path, [_temp.html] in
    its directory as [path.join] spells it, leaves no PDF behind: the
    conversion resolves with that path, [page.pdf] was given it as the place
    to write to, and the deletion of the temporary file that ends the render
    has removed what was written there.  Both modules behave so. *)
Theorem pdf_deleted_at_temp_destination (arg : option options) (w w' : world)
    (v : string) :
  Index.convert arg w = (w', Resolved v) ∨
  Part000.convert arg w = (w', Resolved v) →
  tempHtmlPath v = v →
  files w' !! v = None ∧
  ∃ before html po,
    Puppet.path po = Some v ∧
    log w' = log w ++ before ++ render_events html v po.
Proof.
  intros [Hrun | Hrun] Hsame.
  - apply Index_convert_resolved_inv in Hrun
      as (src & dst & css & hentry & fentry & layout & md & content & po & evs
          & Hrun).
    cbv zeta in Hrun.
    destruct Hrun as (_ & Hdst & -> & _ & _ & _ & _ & _ & Hpo & _ & ->).
    apply Index_puppetOptions_path in Hpo. simpl in Hpo. rewrite Hdst in Hpo.
    split.
    { match goal with
      | |- files (rendered ?page _ _ ?w0) !! _ = _ =>
          pose proof (rendered_temp_removed page dst po w0) as Hgone
      end.
      by rewrite Hsame in Hgone. }
    unfold rendered.
    destruct (debug (default empty_options arg)) as [[|c dbg]|]; simpl.
    + exists evs. eexists _, po.
      split; [done | rewrite <- app_assoc; reflexivity].
    + eexists (evs ++ [_]), _, po.
      split; [done | rewrite <- !app_assoc; reflexivity].
    + exists evs. eexists _, po.
      split; [done | rewrite <- app_assoc; reflexivity].
  - apply Part000_convert_resolved_inv in Hrun
      as (src & dst & css & hdr & ftr & layout & md & content & po & evs
          & Hrun).
    cbv zeta in Hrun.
    destruct Hrun as (_ & Hdst & -> & _ & _ & _ & _ & _ & Hpo & _ & ->).
    apply Part000_puppetOptions_path in Hpo. simpl in Hpo. rewrite Hdst in Hpo.
    split.
    { match goal with
      | |- files (rendered ?page _ _ ?w0) !! _ = _ =>
          pose proof (rendered_temp_removed page dst po w0) as Hgone
      end.
      by rewrite Hsame in Hgone. }
    unfold rendered. simpl.
    exists evs. eexists _, po.
    split; [done | rewrite <- app_assoc; reflexivity].
Qed.

(** X9.  A conversion resolves only for a request that has [options.pdf]
    and [options.pdf.border]; the one [page.pdf] call then carries the
    destination as path, [printBackground] set, and the format and the four
    margins of the request unchanged.  Both modules behave so. *)
Theorem render_parameters_pass_through (arg : option options) (w w' : world)
    (v : string) :
  Index.convert arg w = (w', Resolved v) ∨
  Part000.convert arg w = (w', Resolved v) →
  ∃ layout border before html po,
    pdf (default empty_options arg) = Some layout ∧
    Pdf.border layout = Some border ∧
    log w' = log w ++ before ++ render_events html v po ∧
    Puppet.path po = Some v ∧
    Puppet.printBackground po = true ∧
    Puppet.format po = Pdf.format layout ∧
    Puppet.margin po =
      {| Puppet.top := Border.top border;
         Puppet.right := Border.right border;
         Puppet.bottom := Border.bottom border;
         Puppet.left := Border.left border |}.
Proof.
  intros [Hrun | Hrun].
  - apply Index_convert_resolved_inv in Hrun
      as (src & dst & css & hentry & fentry & layout & md & content & po & evs
          & Hrun).
    cbv zeta in Hrun.
    destruct Hrun as (_ & Hdst & -> & _ & _ & _ & _ & _ & Hpo & _ & ->).
    unfold Index.puppetOptions in Hpo. simpl in Hpo.
    destruct (pdf (default empty_options arg)) as [l|]; [|done].
    destruct (Pdf.border l) as [b|] eqn:Hb; [|done].
    injection Hpo as <-. exists l, b. unfold rendered.
    destruct (debug (default empty_options arg)) as [[|c dbg]|]; simpl.
    + exists evs. do 2 eexists.
      split_and!; [done | done | rewrite <- app_assoc; reflexivity | done..].
    + eexists (evs ++ [_]), _, _.
      split_and!; [done | done | rewrite <- !app_assoc; reflexivity | done..].
    + exists evs. do 2 eexists.
      split_and!; [done | done | rewrite <- app_assoc; reflexivity | done..].
  - apply Part000_convert_resolved_inv in Hrun
      as (src & dst & css & hdr & ftr & layout & md & content & po & evs
          & Hrun).
    cbv zeta in Hrun.
    destruct Hrun as (_ & Hdst & -> & _ & _ & _ & _ & _ & Hpo & _ & ->).
    unfold Part000.puppetOptions in Hpo. simpl in Hpo.
    destruct (pdf (default empty_options arg)) as [l|]; [|done].
    destruct (Pdf.border l) as [b|] eqn:Hb; [|done].
    injection Hpo as <-. exists l, b. unfold rendered. simpl.
    exists evs. do 2 eexists.
    split_and!; [done | done | rewrite <- app_assoc; reflexivity | done..].
Qed.

(** The key of the entry a fragment is bound under, if it is bound. *)
Lemma bound_fragment_keys (w : world) (dir : string) (p : value)
    (key : string) (entry : hb_context) :
  bound_fragment w dir p key entry → entry.*1 = [] ∨ entry.*1 = [key].
Proof.
  unfold bound_fragment. destruct (truthy p); [|intros ->; by left].
  intros (file & content & _ & _ & Hentry).
  destruct (truthy (Some content)); [|subst entry; by left].
  destruct Hentry as (prepared & _ & ->). by right.
Qed.

(** X10.  In [src/index.js] a header file that is empty counts as no header:
    the page of a conversion that resolved is the layout applied to the
    context made of the highlighting script, the styles, the footer entry if
    the request has a footer, and the body; no entry of it has the key
    [header]. *)
Theorem index_empty_header_is_no_header (arg : option options) (w w' : world)
    (v p : string) :
  let o := default empty_options arg in
  Index.convert arg w = (w', Resolved v) →
  header o = Some p →
  files w !! p = Some "" →
  ∃ src css fentry layout md body before po,
    let dir := path_dirname (path_resolve [src]) in
    let context :=
      [("highlightJs", Plain highlightJs); ("css", SafeString css)] ++
      fentry ++ [("body", SafeString body)] in
    source o = Some src ∧
    bound_fragment w dir (footer o) "footer" fentry ∧
    files w !! Index.layoutPath = Some layout ∧
    files w !! src = Some md ∧
    qualified_in dir (parseMarkdownToHtml md (negb (noEmoji o))) body ∧
    ("header" ∉ context.*1) ∧
    log w' = log w ++ before ++
             render_events (Handlebars_compile layout context) v po.
Proof.
  intros o Hrun Hheader Hempty.
  apply Index_convert_resolved_inv in Hrun
    as (src & dst & css & hentry & fentry & layout & md & content & po & evs
        & Hrun).
  cbv zeta in Hrun. fold o in Hrun.
  destruct Hrun as (Hsrc & _ & -> & Hhdr & Hftr & Hlayout & Hmd & Hbody & _ & _ & ->).
  assert (hentry = []) as ->.
  { unfold bound_fragment in Hhdr. rewrite Hheader in Hhdr.
    destruct (truthy (Some p)); [|done].
    destruct Hhdr as (file & content' & [= <-] & Hfile & Hentry).
    rewrite Hempty in Hfile. by injection Hfile as <-. }
  assert (Hkeys : "header" ∉
            ([("highlightJs", Plain highlightJs); ("css", SafeString css)] ++
             fentry ++ [("body", SafeString content)]).*1).
  { rewrite !fmap_app.
    destruct (bound_fragment_keys _ _ _ _ _ Hftr) as [-> | ->];
      simpl; rewrite !not_elem_of_cons; split_and!; try done;
      apply not_elem_of_nil. }
  exists src, css, fentry, layout, md, content. unfold rendered.
  destruct (debug o) as [[|c dbg]|]; simpl.
  - exists evs, po. cbv zeta. split_and!; try done.
    rewrite <- app_assoc. reflexivity.
  - eexists (evs ++ [_]), po. cbv zeta. split_and!; try done.
    rewrite <- !app_assoc. reflexivity.
  - exists evs, po. cbv zeta. split_and!; try done.
    rewrite <- app_assoc. reflexivity.
Qed.

End SuccessMore.

(** ** The whole conversion: failures before the render *)

Lemma quiet_refl (w : world) : quiet w w.
Proof. exists []. by rewrite logged_nil. Qed.

Lemma quiet_trans (w1 w2 w3 : world) : quiet w1 w2 → quiet w2 w3 → quiet w1 w3.
Proof.
  intros (evs1 & -> & Hr1) (evs2 & -> & Hr2). exists (evs1 ++ evs2).
  rewrite logged_logged. split; [done | by rewrite forallb_app, Hr1, Hr2].
Qed.

Lemma quiet_files (w w' : world) : quiet w w' → files w' = files w.
Proof. by intros (evs & -> & _). Qed.

(** A chain that starts with a reading step either stops there, rejected,
    or goes on from a world in which only reads happened. *)
Lemma quiet_bind {A B} (m : io A) (k : A → io B) (w w' : world)
    (r : result B) :
  reads_only m → (m ≫= k) w = (w', r) →
  (quiet w w' ∧ ∃ e, r = Throw e) ∨
  (∃ w1 a, quiet w w1 ∧ m w = (w1, Ok a) ∧ k a w1 = (w', r)).
Proof.
  intros Hm. rewrite bind_unfold. destruct (m w) as [w1 [a|e]] eqn:Hrun.
  - intros Hrest. right. exists w1, a. split; [by eapply Hm | done].
  - intros [= <- <-]. left. split; [by eapply Hm | by eexists].
Qed.

Section BeforeRender.
Context `{Host}.

Lemma Part000_chain_before_render (o : options) (src : string)
    (local : hb_context) (w w' : world) (r : result string) :
  (header ← Part000.prepareHeader o;
   let options := with_header header o in
   footer ← Part000.prepareFooter options;
   let options := with_footer footer options in
   layout ← readFile Part000.layoutPath;
   let template := Handlebars_compile layout in
   mdDoc ← readFile src;
   content ← lift (
     qualifyImgSources
       (parseMarkdownToHtml mdDoc (negb (noEmoji options))) options);
   let local := push local ("body", SafeString content) in
   let html := template local in
   Part000.createPdf html options) w = (w', r) →
  (quiet w w' ∧ ∃ e, r = Throw e) ∨
  (∃ md o' content,
     files w !! src = Some md ∧
     qualifyImgSources (parseMarkdownToHtml md (negb (noEmoji o))) o'
       = Ok content).
Proof.
  intros Hrun.
  apply quiet_bind in Hrun as [Hstop | (w1 & hdr & Hq1 & _ & Hrun)];
    [by left | | apply reads_only_prepareHeader].
  cbv zeta in Hrun.
  apply quiet_bind in Hrun as [[Hq [e ->]] | (w2 & ftr & Hq2 & _ & Hrun)];
    [left; split; [by eapply quiet_trans | by eexists] |
     | apply reads_only_prepareFooter].
  pose proof (quiet_trans _ _ _ Hq1 Hq2) as Hq12. cbv zeta in Hrun.
  apply quiet_bind in Hrun as [[Hq [e ->]] | (w3 & layout & Hq3 & _ & Hrun)];
    [left; split; [by eapply quiet_trans | by eexists] |
     | apply reads_only_readFile].
  pose proof (quiet_trans _ _ _ Hq12 Hq3) as Hq123. cbv zeta in Hrun.
  apply quiet_bind in Hrun as [[Hq [e ->]] | (w4 & md & Hq4 & Hmd & Hrun)];
    [left; split; [by eapply quiet_trans | by eexists] |
     | apply reads_only_readFile].
  pose proof (quiet_trans _ _ _ Hq123 Hq4) as Hq1234.
  apply readFile_ok_inv in Hmd as [Hmd _].
  rewrite (quiet_files _ _ Hq123) in Hmd.
  apply quiet_bind in Hrun as [[Hq [e ->]] | (w5 & content & _ & Hc & _)];
    [left; split; [by eapply quiet_trans | by eexists] |
     | apply reads_only_lift].
  apply lift_ok_inv in Hc as [Hc _].
  right. by exists md, (with_footer ftr (with_header hdr o)), content.
Qed.

Lemma Index_chain_before_render (o : options) (src : string)
    (local : hb_context) (w w' : world) (r : result string) :
  (layout ← readFile Index.layoutPath;
   let template := Handlebars_compile layout in
   headerContent ←
     if_truthy (header o)
       (λ p, content ← readFile p; mret (Some content)) (mret None);
   local ← lift (
     if_truthy headerContent
       (λ content,
          preparedHeader ← qualifyImgSources content o;
          mret (push local ("header", SafeString preparedHeader)))
       (mret local));
   footerContent ←
     if_truthy (footer o)
       (λ p, content ← readFile p; mret (Some content)) (mret None);
   local ← lift (
     if_truthy footerContent
       (λ content,
          preparedFooter ← qualifyImgSources content o;
          mret (push local ("footer", SafeString preparedFooter)))
       (mret local));
   md ← readFile src;
   content ← lift (
     qualifyImgSources (parseMarkdownToHtml md (negb (noEmoji o))) o);
   let local := push local ("body", SafeString content) in
   let html := template local in
   _ ← if_truthy (debug o) (λ p, writeFileSync p html) (mret ());
   Index.createPdf html o) w = (w', r) →
  (quiet w w' ∧ ∃ e, r = Throw e) ∨
  (∃ md o' content,
     files w !! src = Some md ∧
     qualifyImgSources (parseMarkdownToHtml md (negb (noEmoji o))) o'
       = Ok content).
Proof.
  intros Hrun.
  apply quiet_bind in Hrun as [Hstop | (w1 & layout & Hq1 & _ & Hrun)];
    [by left | | apply reads_only_readFile].
  cbv zeta in Hrun.
  apply quiet_bind in Hrun as [[Hq [e ->]] | (w2 & hgot & Hq2 & _ & Hrun)];
    [left; split; [by eapply quiet_trans | by eexists] |
     | apply reads_only_read_fragment].
  pose proof (quiet_trans _ _ _ Hq1 Hq2) as Hq12.
  apply quiet_bind in Hrun as [[Hq [e ->]] | (w3 & local1 & Hq3 & _ & Hrun)];
    [left; split; [by eapply quiet_trans | by eexists] |
     | apply reads_only_lift].
  pose proof (quiet_trans _ _ _ Hq12 Hq3) as Hq123.
  apply quiet_bind in Hrun as [[Hq [e ->]] | (w4 & fgot & Hq4 & _ & Hrun)];
    [left; split; [by eapply quiet_trans | by eexists] |
     | apply reads_only_read_fragment].
  pose proof (quiet_trans _ _ _ Hq123 Hq4) as Hq1234.
  apply quiet_bind in Hrun as [[Hq [e ->]] | (w5 & local2 & Hq5 & _ & Hrun)];
    [left; split; [by eapply quiet_trans | by eexists] |
     | apply reads_only_lift].
  pose proof (quiet_trans _ _ _ Hq1234 Hq5) as Hq12345.
  apply quiet_bind in Hrun as [[Hq [e ->]] | (w6 & md & Hq6 & Hmd & Hrun)];
    [left; split; [by eapply quiet_trans | by eexists] |
     | apply reads_only_readFile].
  pose proof (quiet_trans _ _ _ Hq12345 Hq6) as Hq123456.
  apply readFile_ok_inv in Hmd as [Hmd _].
  rewrite (quiet_files _ _ Hq12345) in Hmd.
  apply quiet_bind in Hrun as [[Hq [e ->]] | (w7 & content & _ & Hc & _)];
    [left; split; [by eapply quiet_trans | by eexists] |
     | apply reads_only_lift].
  apply lift_ok_inv in Hc as [Hc _].
  right. by exists md, o, content.
Qed.

(** What both modules do up to the render, for a fact [ruled_out] that
    excludes reading the source and qualifying the body. *)
Lemma convert_before_render (arg : option options) (w : world) (src : string) :
  let o := default empty_options arg in
  source o = Some src →
  (∀ md o' content,
     files w !! src = Some md →
     qualifyImgSources (parseMarkdownToHtml md (negb (noEmoji o))) o'
       = Ok content → False) →
  (quiet w (Index.convert arg w).1 ∧ ∀ v, (Index.convert arg w).2 ≠ Resolved v) ∧
  (quiet w (Part000.convert arg w).1 ∧ ∀ v, (Part000.convert arg w).2 ≠ Resolved v).
Proof.
  intros o Hsrc Hnot. unfold Index.convert, Part000.convert. fold o.
  rewrite Hsrc. destruct src as [|c0 src]; simpl;
    [by repeat split; try apply quiet_refl |].
  destruct (destination o) as [[|c1 dst]|]; simpl;
    try by repeat split; try apply quiet_refl.
  split.
  - match goal with
    | |- context [getAllStyles ?o1 w] =>
        destruct (getAllStyles o1 w) as [w1 [css|e]] eqn:Hcss;
        apply reads_only_getAllStyles in Hcss
    end; [|done].
    unfold settle.
    match goal with
    | |- context [let (_, _) := ?chain ?w0 in _] =>
        destruct (chain w0) as [w2 r] eqn:Hrun
    end.
    destruct (Index_chain_before_render _ _ _ _ _ _ Hrun)
      as [[Hq [e ->]] | (md & o' & content & Hmd & Hc)].
    + split; [by eapply quiet_trans | done].
    + rewrite (quiet_files _ _ Hcss) in Hmd. destruct (Hnot _ _ _ Hmd Hc).
  - match goal with
    | |- context [getAllStyles ?o1 w] =>
        destruct (getAllStyles o1 w) as [w1 [css|e]] eqn:Hcss;
        apply reads_only_getAllStyles in Hcss
    end; [|done].
    unfold settle.
    match goal with
    | |- context [let (_, _) := ?chain ?w0 in _] =>
        destruct (chain w0) as [w2 r] eqn:Hrun
    end.
    destruct (Part000_chain_before_render _ _ _ _ _ _ Hrun)
      as [[Hq [e ->]] | (md & o' & content & Hmd & Hc)].
    + split; [by eapply quiet_trans | done].
    + rewrite (quiet_files _ _ Hcss) in Hmd. destruct (Hnot _ _ _ Hmd Hc).
Qed.

(** X11.  When the source file does not exist the conversion fails, and all
    that has happened by then is reading: no file was written or deleted and
    no browser was launched.  Both modules behave so. *)
Theorem convert_missing_source_fails (arg : option options) (w : world)
    (src : string) :
  source (default empty_options arg) = Some src →
  files w !! src = None →
  (quiet w (Index.convert arg w).1 ∧ ∀ v, (Index.convert arg w).2 ≠ Resolved v) ∧
  (quiet w (Part000.convert arg w).1 ∧ ∀ v, (Part000.convert arg w).2 ≠ Resolved v).
Proof.
  intros Hsrc Hmissing. apply (convert_before_render arg w src Hsrc).
  intros md o' content Hmd _. congruence.
Qed.

(** X12.  When the HTML of the source holds an [img] without [src], the
    conversion fails, and all that has happened by then is reading: no file
    was written or deleted and no browser was launched.  Both modules behave
    so. *)
Theorem convert_img_without_src_fails (arg : option options) (w : world)
    (src md : string) :
  let o := default empty_options arg in
  source o = Some src →
  files w !! src = Some md →
  forallb imgs_have_src
    (cheerio_load (parseMarkdownToHtml md (negb (noEmoji o)))) = false →
  (quiet w (Index.convert arg w).1 ∧ ∀ v, (Index.convert arg w).2 ≠ Resolved v) ∧
  (quiet w (Part000.convert arg w).1 ∧ ∀ v, (Part000.convert arg w).2 ≠ Resolved v).
Proof.
  intros o Hsrc Hmd Himg. apply (convert_before_render arg w src Hsrc).
  intros md' o' content Hmd' Hc. rewrite Hmd in Hmd'. injection Hmd' as <-.
  destruct (qualifyImgSources_missing_src _ o' Himg) as [e He]. fold o in Hc.
  congruence.
Qed.

End BeforeRender.

(** ** The whole conversion: the order of its I/O *)

Section Order.
Context `{Host}.

Lemma getCssAsHtml_loop_ok_log (sheets : list string) :
  ∀ (styleHtml : string) (w w' : world) (css : string),
  getCssAsHtml_loop styleHtml sheets w = (w', Ok css) →
  w' = logged (EvReadFileSync <$> sheets) w.
Proof.
  induction sheets as [|p sheets IH]; intros styleHtml w w' css.
  - intros [= <- _]. by rewrite logged_nil.
  - simpl getCssAsHtml_loop. intros Hrun.
    apply bind_ok_inv in Hrun as (w1 & c & Hread & Hrest).
    unfold readFileSync in Hread. apply read_ok_inv in Hread as [_ ->].
    apply IH in Hrest as ->. by rewrite logged_record.
Qed.

Lemma prepareHeader_log (o : options) (w w' : world) (hdr : value) :
  Part000.prepareHeader o w = (w', Ok hdr) →
  w' = logged (if_truthy (header o)
                 (λ p, [EvReadFile Part000.headerLayoutPath; EvReadFile p]) [])
              w.
Proof.
  unfold Part000.prepareHeader.
  destruct (header o) as [[|c p]|]; simpl;
    try (intros [= <- _]; by rewrite logged_nil).
  intros Hrun.
  apply bind_ok_inv in Hrun as (w1 & layout & Hlayout & Hrun).
  apply readFile_ok_inv in Hlayout as [_ ->].
  apply bind_ok_inv in Hrun as (w2 & content & Hcontent & Hrun).
  apply readFile_ok_inv in Hcontent as [_ ->].
  apply bind_ok_inv in Hrun as (w3 & prepared & Hprepared & Hrun).
  apply lift_ok_inv in Hprepared as [_ ->].
  injection Hrun as <- _. by rewrite logged_logged.
Qed.

Lemma read_fragment_log (p : value) (w w' : world) (got : value) :
  if_truthy p (λ file, content ← readFile file; mret (Some content)) (mret None) w
    = (w', Ok got) →
  w' = logged (if_truthy p (λ file, [EvReadFile file]) []) w.
Proof.
  destruct p as [[|c file]|]; simpl;
    try (intros [= <- _]; by rewrite logged_nil).
  intros Hrun.
  apply bind_ok_inv in Hrun as (w1 & content & Hcontent & Hrun).
  apply readFile_ok_inv in Hcontent as [_ ->].
  by injection Hrun as <- _.
Qed.

Lemma prepareFooter_log (o : options) (w w' : world) (ftr : value) :
  Part000.prepareFooter o w = (w', Ok ftr) →
  w' = logged (if_truthy (footer o) (λ p, [EvReadFile p]) []) w.
Proof.
  unfold Part000.prepareFooter.
  destruct (footer o) as [[|c p]|]; simpl;
    try (intros [= <- _]; by rewrite logged_nil).
  intros Hrun.
  apply bind_ok_inv in Hrun as (w1 & content & Hcontent & Hrun).
  apply readFile_ok_inv in Hcontent as [_ ->].
  apply bind_ok_inv in Hrun as (w2 & prepared & Hprepared & Hrun).
  apply lift_ok_inv in Hprepared as [_ ->].
  by injection Hrun as <- _.
Qed.

(** X13.  The I/O of a conversion of the sibling module that resolved is, in
    this order and with nothing else in between: the reads of the selected
    stylesheets, of the header layout and the header file (if the request
    has a header), of the footer file (if it has a footer), of the body
    layout and of the source, and then the render. *)
Theorem Part000_resolved_io_order (arg : option options) (w w' : world)
    (v : string) :
  let o := default empty_options arg in
  Part000.convert arg w = (w', Resolved v) →
  ∃ src html po,
    source o = Some src ∧
    log w' =
      log w ++
      (EvReadFileSync <$> selected_sheets o) ++
      if_truthy (header o)
        (λ p, [EvReadFile Part000.headerLayoutPath; EvReadFile p]) [] ++
      if_truthy (footer o) (λ p, [EvReadFile p]) [] ++
      [EvReadFile Part000.layoutPath; EvReadFile src] ++
      render_events html v po.
Proof.
  intros o. unfold Part000.convert. fold o.
  destruct (source o) as [[|c0 src0]|] eqn:Hsrc; simpl; try done.
  destruct (destination o) as [[|c1 dst0]|] eqn:Hdst; simpl; try done.
  set (src := String c0 src0) in *. set (dst := String c1 dst0) in *.
  set (o1 := with_assetDir (Some (path_dirname (path_resolve [src]))) o).
  destruct (getAllStyles o1 w) as [w1 [css|e]] eqn:Hcss; [|done].
  rewrite getAllStyles_sheets in Hcss.
  apply getCssAsHtml_loop_ok_log in Hcss as ->.
  change (selected_sheets o1) with (selected_sheets o).
  unfold settle.
  match goal with
  | |- (let (_, _) := ?run in _) = _ → _ =>
      destruct run as [w2 [x|e]] eqn:Hrun; [|done]
  end.
  intros [= <- <-].
  apply bind_ok_inv in Hrun as (wa & hdr & Hhdr & Hrun).
  apply prepareHeader_log in Hhdr as ->. change (header o1) with (header o) in Hrun.
  cbv zeta in Hrun.
  apply bind_ok_inv in Hrun as (wb & ftr & Hftr & Hrun).
  apply prepareFooter_log in Hftr as ->.
  change (footer (with_header hdr o1)) with (footer o) in Hrun.
  cbv zeta in Hrun.
  apply bind_ok_inv in Hrun as (wc & layout & Hlayout & Hrun).
  apply readFile_ok_inv in Hlayout as [_ ->].
  cbv zeta in Hrun.
  apply bind_ok_inv in Hrun as (wd & md & Hmd & Hrun).
  apply readFile_ok_inv in Hmd as [_ ->].
  apply bind_ok_inv in Hrun as (we & content & Hcontent & Hrun).
  apply lift_ok_inv in Hcontent as [_ ->].
  cbv zeta in Hrun.
  apply Part000_createPdf_resolved_inv in Hrun
    as (dst' & po & Hdst' & _ & _ & -> & ->).
  simpl in Hdst'. rewrite Hdst in Hdst'. injection Hdst' as <-.
  rewrite !logged_logged.
  exists src. eexists _, po. split; [done |].
  unfold rendered, logged. cbn [log]. rewrite <- !app_assoc. reflexivity.
Qed.

(** X14.  The I/O of a conversion of [src/index.js] that resolved is, in
    this order and with nothing else in between: the reads of the selected
    stylesheets, of the layout, of the header file (if the request has a
    header), of the footer file (if it has a footer) and of the source, the
    write of the debug file (if the request asks for it), and then the
    render.  The debug file is written with the very page that is then
    written to the temporary file and rendered. *)
Theorem Index_resolved_io_order (arg : option options) (w w' : world)
    (v : string) :
  let o := default empty_options arg in
  Index.convert arg w = (w', Resolved v) →
  ∃ src html po,
    source o = Some src ∧
    log w' =
      log w ++
      (EvReadFileSync <$> selected_sheets o) ++
      [EvReadFile Index.layoutPath] ++
      if_truthy (header o) (λ p, [EvReadFile p]) [] ++
      if_truthy (footer o) (λ p, [EvReadFile p]) [] ++
      [EvReadFile src] ++
      if_truthy (debug o) (λ p, [EvWriteFileSync p html]) [] ++
      render_events html v po.
Proof.
  intros o. unfold Index.convert. fold o.
  destruct (source o) as [[|c0 src0]|] eqn:Hsrc; simpl; try done.
  destruct (destination o) as [[|c1 dst0]|] eqn:Hdst; simpl; try done.
  set (src := String c0 src0) in *. set (dst := String c1 dst0) in *.
  set (o1 := with_assetDir (Some (path_dirname (path_resolve [src]))) o).
  destruct (getAllStyles o1 w) as [w1 [css|e]] eqn:Hcss; [|done].
  rewrite getAllStyles_sheets in Hcss.
  apply getCssAsHtml_loop_ok_log in Hcss as ->.
  change (selected_sheets o1) with (selected_sheets o).
  unfold settle.
  match goal with
  | |- (let (_, _) := ?run in _) = _ → _ =>
      destruct run as [w2 [x|e]] eqn:Hrun; [|done]
  end.
  intros [= <- <-].
  apply bind_ok_inv in Hrun as (wa & layout & Hlayout & Hrun).
  apply readFile_ok_inv in Hlayout as [_ ->].
  cbv zeta in Hrun.
  apply bind_ok_inv in Hrun as (wb & hgot & Hhgot & Hrun).
  apply read_fragment_log in Hhgot as ->.
  apply bind_ok_inv in Hrun as (wc & local1 & Hlocal1 & Hrun).
  apply lift_ok_inv in Hlocal1 as [_ ->].
  apply bind_ok_inv in Hrun as (wd & fgot & Hfgot & Hrun).
  apply read_fragment_log in Hfgot as ->.
  apply bind_ok_inv in Hrun as (we & local2 & Hlocal2 & Hrun).
  apply lift_ok_inv in Hlocal2 as [_ ->].
  apply bind_ok_inv in Hrun as (wf & md & Hmd & Hrun).
  apply readFile_ok_inv in Hmd as [_ ->].
  apply bind_ok_inv in Hrun as (wg & content & Hcontent & Hrun).
  apply lift_ok_inv in Hcontent as [_ ->].
  cbv zeta in Hrun.
  apply bind_ok_inv in Hrun as (wh & [] & Hdebug & Hrun).
  apply Index_createPdf_resolved_inv in Hrun
    as (dst' & po & Hdst' & _ & _ & -> & ->).
  simpl in Hdst'. rewrite Hdst in Hdst'. injection Hdst' as <-.
  rewrite !logged_logged in Hdebug.
  change (header o1) with (header o) in Hdebug.
  change (footer o1) with (footer o) in Hdebug.
  change (debug o1) with (debug o) in Hdebug.
  exists src. eexists _, po. split; [done |].
  destruct (debug o) as [[|c2 dbg]|]; simpl in Hdebug;
    injection Hdebug as <-;
    unfold rendered, logged, set_files, record; cbn [log if_truthy];
    repeat (rewrite <- ?app_assoc; cbn [app]); reflexivity.
Qed.

End Order.

(** ** The whole conversion: what it throws *)

Lemma getCssAsHtml_loop_throw_inv (sheets : list string) :
  ∀ (styleHtml : string) (w w' : world) (e : error),
  getCssAsHtml_loop styleHtml sheets w = (w', Throw e) →
  ∃ q, q ∈ sheets ∧ files w !! q = None ∧ e = ENOENT "open" q.
Proof.
  induction sheets as [|p sheets IH]; intros styleHtml w w' e; [done |].
  simpl getCssAsHtml_loop. rewrite bind_unfold. unfold readFileSync, read.
  simpl. destruct (files w !! p) as [c|] eqn:Hp.
  - intros Hrest. apply IH in Hrest as (q & Hin & Hq & ->).
    exists q. split_and!; [set_solver | done | done].
  - intros [= <- <-]. exists p. split_and!; [set_solver | done | done].
Qed.

Section Thrown.
Context `{Host}.

(** X15.  [convert] throws from the call itself in three cases only: the
    source path is missing, the destination path is missing (nothing has
    happened then), or a selected stylesheet cannot be read, and then the
    error is the I/O error for that file.  Every other failure comes as a
    rejection of the returned promise.  Both modules behave so. *)
Theorem convert_thrown_cases (arg : option options) (w w' : world) (e : error) :
  let o := default empty_options arg in
  Index.convert arg w = (w', Thrown e) ∨ Part000.convert arg w = (w', Thrown e) →
  (truthy (source o) = false ∧
   e = Error "Source path must be provided" ∧ w' = w) ∨
  (truthy (source o) = true ∧ truthy (destination o) = false ∧
   e = Error "Destination path must be provided" ∧ w' = w) ∨
  (truthy (source o) = true ∧ truthy (destination o) = true ∧
   ∃ q, q ∈ selected_sheets o ∧ files w !! q = None ∧ e = ENOENT "open" q).
Proof.
  intros o. unfold Index.convert, Part000.convert. fold o.
  destruct (source o) as [[|c0 src]|]; simpl;
    try (intros [[= <- <-] | [= <- <-]]; by left).
  destruct (destination o) as [[|c1 dst]|]; simpl;
    try (intros [[= <- <-] | [= <- <-]]; right; by left).
  match goal with
  | |- context [getAllStyles ?o1 w] =>
      destruct (getAllStyles o1 w) as [w1 [css|e']] eqn:Hcss
  end.
  - unfold settle.
    intros [Hrun | Hrun];
      match type of Hrun with
      | (let (_, _) := ?chain ?w0 in _) = _ =>
          destruct (chain w0) as [w2 [x|e'']]; discriminate
      end.
  - rewrite getAllStyles_sheets in Hcss.
    apply getCssAsHtml_loop_throw_inv in Hcss as (q & Hin & Hq & ->).
    intros [[= <- <-] | [= <- <-]]; right; right;
      (split_and!; [done | done | by exists q]).
Qed.

End Thrown.

(** ** Runs of the reference host that meet the hypotheses above *)

Lemma createPdf_close_failure_witness :
  let e := EngineError "close failed" in
  let w := Reference.world_of [] (fault_at Close e) in
  let o := Reference.request None None in
  (∀ po, Index.puppetOptions o = Ok po →
     close_failed (Index.createPdf "<p>page</p>" o w) w "<p>page</p>"
       "/out/doc.pdf" po e) ∧
  (∀ po, Part000.puppetOptions o = Ok po →
     close_failed (Part000.createPdf "<p>page</p>" o w) w "<p>page</p>"
       "/out/doc.pdf" po e).
Proof.
  intros e w o.
  apply (createPdf_close_failure "<p>page</p>" o w "/out/doc.pdf" e).
  - reflexivity.
  - split; [reflexivity |].
    intros s' Hlt. destruct s'; simpl in Hlt; (reflexivity || lia).
Defined.

Lemma createPdf_missing_layout_fails_witness :
  let w := Reference.world_of [] Reference.no_fault in
  let o := request_with None None None in
  let run := Index.createPdf "<p>page</p>" o w in
  let temp := tempHtmlPath "/out/doc.pdf" in
  let navigation := EvGoto ("file:" +:+ temp) "networkidle2" in
  ∃ e evs,
    run.2 = Throw e ∧ log run.1 = log w ++ evs ∧
    (∀ po, EvPdf po ∉ evs) ∧ (EvClose ∉ evs) ∧ (EvUnlinkSync temp ∉ evs) ∧
    (navigation ∈ evs → fault w Goto = None →
     (∃ msg, e = TypeError msg) ∧
     evs = [EvWriteFile temp "<p>page</p>"; EvLaunch; EvNewPage; navigation] ∧
     files run.1 !! temp = Some "<p>page</p>" ∧
     live_browsers run.1 = S (live_browsers w) ∧
     live_pages run.1 = S (live_pages w)).
Proof.
  intros w o run.
  apply (createPdf_missing_layout_fails "<p>page</p>" o w run.1 "/out/doc.pdf"
           run.2).
  - reflexivity.
  - left. reflexivity.
  - left. apply surjective_pairing.
Defined.

(** That run got past the navigation, and ended as described. *)
Example createPdf_missing_layout_run :
  let w := Reference.world_of [] Reference.no_fault in
  let run := Index.createPdf "<p>page</p>" (request_with None None None) w in
  run.2 = Throw (TypeError "Cannot read property 'format' of undefined") ∧
  log run.1 = [EvWriteFile "/out/_temp.html" "<p>page</p>"; EvLaunch; EvNewPage;
               EvGoto "file:/out/_temp.html" "networkidle2"] ∧
  live_browsers run.1 = 1 ∧ live_pages run.1 = 1.
Proof. vm_compute. done. Qed.

Lemma convert_touches_only_witness :
  let w := Reference.world_of [("/work/doc.md", "# Title")] Reference.no_fault in
  let arg := Some (request_with (Some "/out/debug.html")
                     (pdf (Reference.request None None)) None) in
  touches_only [tempHtmlPath "/out/doc.pdf"; "/out/doc.pdf"] w
    (Part000.convert arg w).1 ∧
  touches_only
    ([tempHtmlPath "/out/doc.pdf"; "/out/doc.pdf"] ++ ["/out/debug.html"]) w
    (Index.convert arg w).1.
Proof.
  intros w arg. split.
  - apply (proj1 (convert_touches_only arg w (Part000.convert arg w).1
                    (Part000.convert arg w).2)).
    by destruct (Part000.convert arg w).
  - apply (proj2 (convert_touches_only arg w (Index.convert arg w).1
                    (Index.convert arg w).2)).
    by destruct (Index.convert arg w).
Defined.

Lemma pdf_deleted_at_temp_destination_witness :
  let w := Reference.world_of [("/work/doc.md", "# Title")] Reference.no_fault in
  let arg := Some (request_to "/out/_temp.html") in
  let w' := (Part000.convert arg w).1 in
  files w' !! "/out/_temp.html" = None ∧
  ∃ before html po,
    Puppet.path po = Some "/out/_temp.html" ∧
    log w' = log w ++ before ++ render_events html "/out/_temp.html" po.
Proof.
  intros w arg w'.
  apply (pdf_deleted_at_temp_destination arg w w' "/out/_temp.html").
  - right. vm_compute. reflexivity.
  - vm_compute. reflexivity.
Defined.

Lemma render_parameters_pass_through_witness :
  let w := Reference.world_of [("/work/doc.md", "# Title")] Reference.no_fault in
  let arg := Some (Reference.request None None) in
  let w' := (Index.convert arg w).1 in
  ∃ layout border before html po,
    pdf (default empty_options arg) = Some layout ∧
    Pdf.border layout = Some border ∧
    log w' = log w ++ before ++ render_events html "/out/doc.pdf" po ∧
    Puppet.path po = Some "/out/doc.pdf" ∧
    Puppet.printBackground po = true ∧
    Puppet.format po = Pdf.format layout ∧
    Puppet.margin po =
      {| Puppet.top := Border.top border;
         Puppet.right := Border.right border;
         Puppet.bottom := Border.bottom border;
         Puppet.left := Border.left border |}.
Proof.
  intros w arg w'.
  apply (render_parameters_pass_through arg w w' "/out/doc.pdf").
  left. vm_compute. reflexivity.
Defined.

Lemma index_empty_header_is_no_header_witness :
  let w := Reference.world_of
             [("/work/doc.md", "# Title"); ("/hdr/empty.html", "")]
             Reference.no_fault in
  let arg := Some (Reference.request (Some "/hdr/empty.html") None) in
  let o := default empty_options arg in
  let w' := (Index.convert arg w).1 in
  ∃ src css fentry layout md body before po,
    let dir := path_dirname (path_resolve [src]) in
    let context :=
      [("highlightJs", Plain highlightJs); ("css", SafeString css)] ++
      fentry ++ [("body", SafeString body)] in
    source o = Some src ∧
    bound_fragment w dir (footer o) "footer" fentry ∧
    files w !! Index.layoutPath = Some layout ∧
    files w !! src = Some md ∧
    qualified_in dir (parseMarkdownToHtml md (negb (noEmoji o))) body ∧
    ("header" ∉ context.*1) ∧
    log w' = log w ++ before ++
             render_events (Handlebars_compile layout context) "/out/doc.pdf" po.
Proof.
  intros w arg o w'.
  apply (index_empty_header_is_no_header arg w w' "/out/doc.pdf"
           "/hdr/empty.html").
  - vm_compute. reflexivity.
  - reflexivity.
  - vm_compute. reflexivity.
Defined.

Lemma convert_missing_source_fails_witness :
  let w := Reference.world_of [] Reference.no_fault in
  let arg := Some (Reference.request None None) in
  (quiet w (Index.convert arg w).1 ∧ ∀ v, (Index.convert arg w).2 ≠ Resolved v) ∧
  (quiet w (Part000.convert arg w).1 ∧ ∀ v, (Part000.convert arg w).2 ≠ Resolved v).
Proof.
  intros w arg.
  apply (convert_missing_source_fails arg w "/work/doc.md").
  - reflexivity.
  - vm_compute. reflexivity.
Defined.

Lemma convert_img_without_src_fails_witness :
  let w := Reference.world_of [("/work/doc.md", "<img>")] Reference.no_fault in
  let arg := Some (Reference.request None None) in
  (quiet w (Index.convert (H := bare_img_host) arg w).1 ∧
   ∀ v, (Index.convert (H := bare_img_host) arg w).2 ≠ Resolved v) ∧
  (quiet w (Part000.convert (H := bare_img_host) arg w).1 ∧
   ∀ v, (Part000.convert (H := bare_img_host) arg w).2 ≠ Resolved v).
Proof.
  intros w arg.
  apply (convert_img_without_src_fails (H := bare_img_host) arg w
           "/work/doc.md" "<img>").
  - reflexivity.
  - vm_compute. reflexivity.
  - vm_compute. reflexivity.
Defined.

Lemma Part000_resolved_io_order_witness :
  let w := Reference.world_of
             [("/work/doc.md", "# Title"); ("/hdr/h.html", "<b>Head</b>")]
             Reference.no_fault in
  let arg := Some (Reference.request (Some "/hdr/h.html") None) in
  let o := default empty_options arg in
  let w' := (Part000.convert arg w).1 in
  ∃ src html po,
    source o = Some src ∧
    log w' =
      log w ++
      (EvReadFileSync <$> selected_sheets o) ++
      if_truthy (header o)
        (λ p, [EvReadFile Part000.headerLayoutPath; EvReadFile p]) [] ++
      if_truthy (footer o) (λ p, [EvReadFile p]) [] ++
      [EvReadFile Part000.layoutPath; EvReadFile src] ++
      render_events html "/out/doc.pdf" po.
Proof.
  intros w arg o w'.
  apply (Part000_resolved_io_order arg w w' "/out/doc.pdf").
  vm_compute. reflexivity.
Defined.

Lemma Index_resolved_io_order_witness :
  let w := Reference.world_of
             [("/work/doc.md", "# Title"); ("/hdr/h.html", "<b>Head</b>")]
             Reference.no_fault in
  let arg := Some (request_with (Some "/out/debug.html")
                     (pdf (Reference.request None None)) (Some "/hdr/h.html")) in
  let o := default empty_options arg in
  let w' := (Index.convert arg w).1 in
  ∃ src html po,
    source o = Some src ∧
    log w' =
      log w ++
      (EvReadFileSync <$> selected_sheets o) ++
      [EvReadFile Index.layoutPath] ++
      if_truthy (header o) (λ p, [EvReadFile p]) [] ++
      if_truthy (footer o) (λ p, [EvReadFile p]) [] ++
      [EvReadFile src] ++
      if_truthy (debug o) (λ p, [EvWriteFileSync p html]) [] ++
      render_events html "/out/doc.pdf" po.
Proof.
  intros w arg o w'.
  apply (Index_resolved_io_order arg w w' "/out/doc.pdf").
  vm_compute. reflexivity.
Defined.

(** The operations of that run, as they are logged. *)
Example Index_resolved_io_order_run :
  let w := Reference.world_of
             [("/work/doc.md", "# Title"); ("/hdr/h.html", "<b>Head</b>")]
             Reference.no_fault in
  let arg := Some (request_with (Some "/out/debug.html")
                     (pdf (Reference.request None None)) (Some "/hdr/h.html")) in
  take 6 (log (Index.convert arg w).1) =
  [EvReadFileSync "/pkg/assets/github-markdown-css.css";
   EvReadFileSync "/pkg/assets/highlight/styles/github.css";
   EvReadFile "/pkg/layout.hbs"; EvReadFile "/hdr/h.html";
   EvReadFile "/work/doc.md";
   EvWriteFileSync "/out/debug.html"
     "[layout]file:///pkg/assets/highlight/highlight.pack.js<style>gh{}</style><style>hl{}</style><b>Head</b><p># Title</p>"].
Proof. vm_compute. reflexivity. Qed.

Lemma convert_thrown_cases_witness :
  let w := Reference.world_of [("/work/doc.md", "# Title")] Reference.no_fault in
  let arg := Some {| source := Some "/work/doc.md";
                     destination := Some "/out/doc.pdf";
                     header := None; footer := None;
                     styles := Some "/nowhere.css"; debug := None;
                     ghStyle := false; defaultStyle := false;
                     noEmoji := false; pdf := None; assetDir := None |} in
  let o := default empty_options arg in
  let e := ENOENT "open" "/nowhere.css" in
  let w' := (Part000.convert arg w).1 in
  (truthy (source o) = false ∧
   e = Error "Source path must be provided" ∧ w' = w) ∨
  (truthy (source o) = true ∧ truthy (destination o) = false ∧
   e = Error "Destination path must be provided" ∧ w' = w) ∨
  (truthy (source o) = true ∧ truthy (destination o) = true ∧
   ∃ q, q ∈ selected_sheets o ∧ files w !! q = None ∧ e = ENOENT "open" q).
Proof.
  intros w arg o e w'.
  apply (convert_thrown_cases arg w w' e).
  right. vm_compute. reflexivity.
Defined.
